(** * Event publisher of the Stratos Python cartridge agent

    A shallow embedding of [cartridge.agent/publisher.py]: the one-shot
    lifecycle publish functions, the publisher registry [get_publisher],
    and the retry loop of [EventPublisher.__publish_event].

    Python's module-level state ([Config], [publishers], the objects
    created by [EventPublisher(topic)]) is threaded explicitly through a
    state-and-exception monad.  Every observable action of the code (a log
    call, the construction of an event, the start of a thread, a broker
    attempt, a sleep, ...) is appended to a trace, so that statements about
    what the code does or does not do, and in which order, are statements
    about that trace. *)

From Stdlib Require Import ZArith List String Ascii Bool Lia.
From stdpp Require Import base gmap strings list.

Local Open Scope Z_scope.

(** ** Values that are logged, events, effects *)

Inductive Level := DEBUG | INFO | WARN | ERROR.

(** Arguments of a [%]-formatted log message, kept unformatted. *)
Inductive Arg :=
| AStr (s : string)
| AInt (z : Z)
| AInts (l : list Z).

(** The event classes imported from [modules.event.instance.status.events];
    their fields are the constructor arguments, in the order of the calls. *)
Inductive Event :=
| InstanceStartedEvent
    (application_id service_name cluster_id cluster_instance_id
     member_id instance_id network_partition_id partition_id : string)
| InstanceActivatedEvent
    (service_name cluster_id cluster_instance_id
     member_id instance_id network_partition_id partition_id : string)
| InstanceMaintenanceModeEvent
    (service_name cluster_id cluster_instance_id
     member_id instance_id network_partition_id partition_id : string)
| InstanceReadyToShutdownEvent
    (service_name cluster_id cluster_instance_id
     member_id instance_id network_partition_id partition_id : string)
| CompleteTopologyRequestEvent
| CompleteTenantRequestEvent.

(** The four one-shot flags of [Config]. *)
Inductive Kind := Started | Activated | Maintenance | ReadyToShutdown.

(** Address of an [EventPublisher] object: object identity is address
    equality. *)
Definition loc := nat.

Inductive Effect :=
| ELog (lvl : Level) (fmt : string) (args : list Arg)
| EPortCheck (address : string) (ports : list Z) (timeout : Z) (active : bool)
| EConstruct (e : Event)
| ENewPublisher (p : loc) (topic : string) (start_time : Z)
| EStore (topic : string) (p : loc)
| ESpawn (p : loc) (e : Event)
| EStatsNew (interval : Z)
| EStatsStart (interval : Z)
| ESetFlag (k : Kind)
| EClock (t : Z)
| EAttempt (topic payload host port : string)
           (auth : option (string * option string)) (ok : bool)
| ESleep (seconds : Z).

Definition is_spawn (e : Effect) : bool :=
  match e with ESpawn _ _ => true | _ => false end.
Definition is_construct (e : Effect) : bool :=
  match e with EConstruct _ => true | _ => false end.
Definition is_new_publisher (e : Effect) : bool :=
  match e with ENewPublisher _ _ _ => true | _ => false end.
Definition is_attempt (e : Effect) : bool :=
  match e with EAttempt _ _ _ _ _ _ => true | _ => false end.
Definition is_sleep (e : Effect) : bool :=
  match e with ESleep _ => true | _ => false end.
Definition is_warning (e : Effect) : bool :=
  match e with ELog WARN _ _ => true | _ => false end.
Definition is_set_flag (k : Kind) (e : Effect) : bool :=
  match e, k with
  | ESetFlag Started, Started | ESetFlag Activated, Activated
  | ESetFlag Maintenance, Maintenance
  | ESetFlag ReadyToShutdown, ReadyToShutdown => true
  | _, _ => false
  end.
Definition is_stats_start (e : Effect) : bool :=
  match e with EStatsStart _ => true | _ => false end.

(** Number of effects of a trace that satisfy [f]. *)
Fixpoint count (f : Effect -> bool) (tr : list Effect) : nat :=
  match tr with
  | [] => O
  | e :: tr' => ((if f e then 1 else 0) + count f tr')%nat
  end.

(** ** State and exception monad *)

Inductive Exn := ValueError | TypeError | KeyError.

Inductive Res (A : Type) :=
| Return (a : A)
| Raise (e : Exn)
| OutOfFuel.
Arguments Return {A} a.
Arguments Raise {A} e.
Arguments OutOfFuel {A}.

Definition M (S A : Type) : Type := S -> Res A * S.

Definition ret {S A} (a : A) : M S A := fun s => (Return a, s).
Definition raise {S A} (e : Exn) : M S A := fun s => (Raise e, s).
Definition bind {S A B} (m : M S A) (k : A -> M S B) : M S B :=
  fun s =>
    match m s with
    | (Return a, s') => k a s'
    | (Raise e, s') => (Raise e, s')
    | (OutOfFuel, s') => (OutOfFuel, s')
    end.

(** The world a computation leaves, and what it answers. *)
Definition exec {S A} (m : M S A) (s : S) : S := snd (m s).
Definition answer {S A} (m : M S A) (s : S) : Res A := fst (m s).

Notation "'let*' x ':=' m 'in' k" := (bind m (fun x => k))
  (at level 10, x name, m at level 100, k at level 200, only parsing).
Notation "m '>>' k" := (bind m (fun _ => k))
  (at level 110, right associativity, only parsing).

(** ** Configuration and world *)

Record Config := {
  started : bool;
  activated : bool;
  maintenance : bool;
  ready_to_shutdown : bool;
  application_id : string;
  service_name : string;
  cluster_id : string;
  cluster_instance_id : string;
  member_id : string;
  instance_id : string;
  network_partition_id : string;
  partition_id : string;
  listen_address : string;
  ports : list Z;
  mb_urls : list string;
  mb_username : option string;
  mb_password : option string;
  mb_publisher_timeout : Z;
  properties : gmap string string
}.

Definition with_flags (s a m r : bool) (c : Config) : Config :=
  {| started := s; activated := a; maintenance := m; ready_to_shutdown := r;
     application_id := application_id c; service_name := service_name c;
     cluster_id := cluster_id c; cluster_instance_id := cluster_instance_id c;
     member_id := member_id c; instance_id := instance_id c;
     network_partition_id := network_partition_id c;
     partition_id := partition_id c;
     listen_address := listen_address c; ports := ports c;
     mb_urls := mb_urls c; mb_username := mb_username c;
     mb_password := mb_password c;
     mb_publisher_timeout := mb_publisher_timeout c;
     properties := properties c |}.

Definition flag (k : Kind) (c : Config) : bool :=
  match k with
  | Started => started c
  | Activated => activated c
  | Maintenance => maintenance c
  | ReadyToShutdown => ready_to_shutdown c
  end.

(** [Config.<flag> = True] *)
Definition raise_flag (k : Kind) (c : Config) : Config :=
  match k with
  | Started =>
      with_flags true (activated c) (maintenance c) (ready_to_shutdown c) c
  | Activated =>
      with_flags (started c) true (maintenance c) (ready_to_shutdown c) c
  | Maintenance =>
      with_flags (started c) (activated c) true (ready_to_shutdown c) c
  | ReadyToShutdown =>
      with_flags (started c) (activated c) (maintenance c) true c
  end.

(** An [EventPublisher] object: the two data attributes set by
    [__init__] (the logger attribute carries no data). *)
Record EventPublisher := {
  ep_topic : string;
  ep_start_time : Z
}.

(** The main thread's world.  [now] and [ports_active] belong to the
    environment: [now] is what [int(time.time())] answers, [ports_active]
    what [wait_until_ports_active] answers after blocking for [port_wait]
    seconds.  [heap] holds every [EventPublisher] ever constructed, an
    object's address being its index; [publishers] is the module-level
    dictionary; [threads] lists the threads started so far with the bound
    method's receiver and argument. *)
Record World := {
  config : Config;
  publishers : gmap string loc;
  heap : list EventPublisher;
  threads : list (loc * Event);
  now : Z;
  ports_active : bool;
  port_wait : Z;
  trace : list Effect
}.

Definition set_config (c : Config) (w : World) : World :=
  {| config := c; publishers := publishers w; heap := heap w;
     threads := threads w; now := now w; ports_active := ports_active w;
     port_wait := port_wait w; trace := trace w |}.
Definition set_publishers (m : gmap string loc) (w : World) : World :=
  {| config := config w; publishers := m; heap := heap w;
     threads := threads w; now := now w; ports_active := ports_active w;
     port_wait := port_wait w; trace := trace w |}.
Definition set_heap (h : list EventPublisher) (w : World) : World :=
  {| config := config w; publishers := publishers w; heap := h;
     threads := threads w; now := now w; ports_active := ports_active w;
     port_wait := port_wait w; trace := trace w |}.
Definition set_threads (t : list (loc * Event)) (w : World) : World :=
  {| config := config w; publishers := publishers w; heap := heap w;
     threads := t; now := now w; ports_active := ports_active w;
     port_wait := port_wait w; trace := trace w |}.
Definition set_now (t : Z) (w : World) : World :=
  {| config := config w; publishers := publishers w; heap := heap w;
     threads := threads w; now := t; ports_active := ports_active w;
     port_wait := port_wait w; trace := trace w |}.
Definition set_ports_active (b : bool) (w : World) : World :=
  {| config := config w; publishers := publishers w; heap := heap w;
     threads := threads w; now := now w; ports_active := b;
     port_wait := port_wait w; trace := trace w |}.
Definition set_trace (tr : list Effect) (w : World) : World :=
  {| config := config w; publishers := publishers w; heap := heap w;
     threads := threads w; now := now w; ports_active := ports_active w;
     port_wait := port_wait w; trace := tr |}.

Definition emit (e : Effect) : M World unit :=
  fun w => (Return tt, set_trace (trace w ++ [e]) w).

Definition log (lvl : Level) (fmt : string) (args : list Arg) : M World unit :=
  emit (ELog lvl fmt args).

Definition get_config : M World Config := fun w => (Return (config w), w).

(** The names of [constants] that the module uses. *)
Record Constants := {
  INSTANCE_STATUS_TOPIC : string;
  INITIALIZER_TOPIC : string;
  INSTANCE_STARTED_EVENT : string;
  INSTANCE_ACTIVATED_EVENT : string;
  INSTANCE_MAINTENANCE_MODE_EVENT : string;
  INSTANCE_READY_TO_SHUTDOWN_EVENT : string;
  COMPLETE_TOPOLOGY_REQUEST_EVENT : string;
  COMPLETE_TENANT_REQUEST_EVENT : string;
  CEP_PUBLISHER_ENABLED : string
}.

(** Python's [str.split] with a one-character separator. *)
Fixpoint str_split (sep : ascii) (s : string) : list string :=
  match s with
  | EmptyString => [EmptyString]
  | String c s' =>
      if Ascii.eqb c sep then EmptyString :: str_split sep s'
      else match str_split sep s' with
           | h :: t => String c h :: t
           | [] => [String c EmptyString]
           end
  end.

(** [a, b = parts]: unpacking anything but two items is a [ValueError]. *)
Definition unpack2 {S} (parts : list string) : M S (string * string) :=
  match parts with
  | [a; b] => ret (a, b)
  | _ => raise ValueError
  end.

(** Truth value of what [Config.read_property] hands back. *)
Definition truthy (v : option string) : bool :=
  match v with
  | None => false
  | Some s => negb (String.eqb s EmptyString)
  end.

(** ** The retry interval iterator *)

(** Modelled from the spec: [IncrementalCeilingListIterator] lives in
    [modules.util.cartridgeagentutils], which is not part of this file.  The
    specification describes it as a cursor over an ordered sequence of wait
    durations: [get_next_retry_interval] answers the duration under the
    cursor and advances the cursor by one position, clamping at the final
    index.  The second constructor argument selects another mode that this
    module never asks for; it is stored and not interpreted. *)
Record IncrementalCeilingListIterator := {
  it_intervals : list Z;
  it_cursor : nat;
  it_mode : bool
}.

Definition new_iterator (intervals : list Z) (mode : bool)
  : IncrementalCeilingListIterator :=
  {| it_intervals := intervals; it_cursor := 0; it_mode := mode |}.

Definition get_next_retry_interval (it : IncrementalCeilingListIterator)
  : Z * IncrementalCeilingListIterator :=
  (nth (it_cursor it) (it_intervals it) 0,
   {| it_intervals := it_intervals it;
      it_cursor := Nat.min (S (it_cursor it)) (Nat.pred (length (it_intervals it)));
      it_mode := it_mode it |}).

Definition retry_table : list Z :=
  [2; 2; 5; 5; 10; 10; 20; 20; 30; 30; 40; 40; 50; 50; 60].

(** ** The delivery thread's world *)

(** What the thread that runs [__publish_event] meets: [clock k] is the
    answer of its [k]-th call of [int(time.time())], and [accepts n host
    port] tells whether its [n]-th call of [publish.single], made to that
    endpoint, returns normally ([true]) or raises ([false]). *)
Record Net := {
  clock : nat -> Z;
  accepts : nat -> string -> string -> bool
}.

Record Task := {
  clock_reads : nat;
  attempts : nat;
  ttrace : list Effect
}.

Definition new_task : Task :=
  {| clock_reads := 0; attempts := 0; ttrace := [] |}.

Definition temit (e : Effect) : M Task unit :=
  fun t => (Return tt,
            {| clock_reads := clock_reads t; attempts := attempts t;
               ttrace := ttrace t ++ [e] |}).

Definition tlog (lvl : Level) (fmt : string) (args : list Arg) : M Task unit :=
  temit (ELog lvl fmt args).

(** [int(time.time())] *)
Definition time_time (net : Net) : M Task Z :=
  fun t => (Return (clock net (clock_reads t)),
            {| clock_reads := S (clock_reads t); attempts := attempts t;
               ttrace := ttrace t ++ [EClock (clock net (clock_reads t))] |}).

(** [time.sleep(seconds)] *)
Definition time_sleep (seconds : Z) : M Task unit := temit (ESleep seconds).

(** [publish.single(topic, payload, hostname=, port=, auth=)]; the answer
    [false] stands for any exception raised by the call. *)
Definition publish_single (net : Net) (topic payload host port : string)
    (auth : option (string * option string)) : M Task bool :=
  fun t =>
    let ok := accepts net (attempts t) host port in
    (Return ok,
     {| clock_reads := clock_reads t; attempts := S (attempts t);
        ttrace := ttrace t ++ [EAttempt topic payload host port auth ok] |}).

(** ** The module's functions *)

Section Agent.

(** The values of [constants], Python's [int] on a string ([None] stands
    for [ValueError]) and the events' [to_json] come from outside this
    module. *)
Variable constants : Constants.
Variable py_int : string -> option Z.
Variable to_json : Event -> string.

(** [Config.read_property(name, critical)].  [Config] is not part of this
    file: the call is taken to answer the configured string, or [None]
    when the property is absent. *)
Definition read_property (name : string) : M World (option string) :=
  fun w => (Return (properties (config w) !! name), w).

(** [int(v)] for what [read_property] answers. *)
Definition int_of {S} (v : option string) : M S Z :=
  match v with
  | None => raise TypeError
  | Some s => match py_int s with
              | Some z => ret z
              | None => raise ValueError
              end
  end.

(** [cartridgeagentutils.wait_until_ports_active]: blocks, then answers
    whether every port accepted a connection. *)
Definition wait_until_ports_active (address : string) (prts : list Z)
    (timeout : Z) : M World bool :=
  fun w =>
    (Return (ports_active w),
     set_now (now w + port_wait w)
       (set_trace
          (trace w ++ [EPortCheck address prts timeout (ports_active w)]) w)).

(** [EventPublisher.__init__] *)
Definition EventPublisher_init (topic : string) : M World loc :=
  fun w =>
    let p := length (heap w) in
    (Return p,
     set_heap (heap w ++ [{| ep_topic := topic; ep_start_time := now w |}])
       (set_trace (trace w ++ [ENewPublisher p topic (now w)]) w)).

(** [topic in publishers] *)
Definition contains_publisher (topic : string) : M World bool :=
  fun w => (Return (bool_decide (is_Some (publishers w !! topic))), w).

(** [publishers[topic] = p] *)
Definition store_publisher (topic : string) (p : loc) : M World unit :=
  fun w =>
    (Return tt,
     set_publishers (<[topic := p]> (publishers w))
       (set_trace (trace w ++ [EStore topic p]) w)).

(** [publishers[topic]] *)
Definition load_publisher (topic : string) : M World loc :=
  fun w =>
    match publishers w !! topic with
    | Some p => (Return p, w)
    | None => (Raise KeyError, w)
    end.

Definition get_publisher (topic : string) : M World loc :=
  let* present := contains_publisher topic in
  (if negb present
   then let* p := EventPublisher_init topic in store_publisher topic p
   else ret tt) >>
  load_publisher topic.

(** [EventPublisher.publish]: starts a thread on [self.__publish_event]
    with [event] and returns. *)
Definition publish (self : loc) (event : Event) : M World unit :=
  fun w =>
    (Return tt,
     set_threads (threads w ++ [(self, event)])
       (set_trace (trace w ++ [ESpawn self event]) w)).

Definition construct (e : Event) : M World Event :=
  emit (EConstruct e) >> ret e.

Definition set_flag (k : Kind) : M World unit :=
  fun w =>
    (Return tt,
     set_config (raise_flag k (config w))
       (set_trace (trace w ++ [ESetFlag k]) w)).

Definition publish_instance_started_event : M World unit :=
  let* cfg := get_config in
  if negb (started cfg) then
    log INFO "Publishing instance started event..." [] >>
    let* instance_started_event :=
      construct (InstanceStartedEvent
                   (application_id cfg) (service_name cfg) (cluster_id cfg)
                   (cluster_instance_id cfg) (member_id cfg)
                   (instance_id cfg) (network_partition_id cfg)
                   (partition_id cfg)) in
    let* publisher :=
      get_publisher (INSTANCE_STATUS_TOPIC constants
                     +:+ INSTANCE_STARTED_EVENT constants) in
    publish publisher instance_started_event >>
    set_flag Started >>
    log INFO "Instance started event published" []
  else
    log WARN "Instance already started" [].

(** The statistics notifier of [publish_instance_activated_event]. *)
Definition start_health_statistics : M World unit :=
  let* health_stat_publishing_enabled :=
    read_property (CEP_PUBLISHER_ENABLED constants) in
  if truthy health_stat_publishing_enabled then
    let interval_default := 15 in
    let* interval := read_property "stats.notifier.interval" in
    let interval :=
      match interval with
      | Some s =>
          if (0 <? String.length s)%nat
          then match py_int s with
               | Some z => z
               | None => interval_default
               end
          else interval_default
      | None => interval_default
      end in
    emit (EStatsNew interval) >>
    log INFO "Starting Health statistics publisher with interval %r"
        [AInt interval] >>
    emit (EStatsStart interval)
  else
    log WARN "Statistics publisher is disabled" [].

Definition publish_instance_activated_event : M World unit :=
  let* cfg := get_config in
  if negb (activated cfg) then
    let listen_address := listen_address cfg in
    let configuration_ports := ports cfg in
    let* timeout_property := read_property "port.check.timeout" in
    let* timeout := int_of timeout_property in
    let* ports_active :=
      wait_until_ports_active listen_address configuration_ports timeout in
    if ports_active then
      log INFO "Publishing instance activated event..." [] >>
      let* instance_activated_event :=
        construct (InstanceActivatedEvent
                     (service_name cfg) (cluster_id cfg)
                     (cluster_instance_id cfg) (member_id cfg)
                     (instance_id cfg) (network_partition_id cfg)
                     (partition_id cfg)) in
      let* publisher :=
        get_publisher (INSTANCE_STATUS_TOPIC constants
                       +:+ INSTANCE_ACTIVATED_EVENT constants) in
      publish publisher instance_activated_event >>
      log INFO "Instance activated event published" [] >>
      log INFO "Starting health statistics notifier" [] >>
      start_health_statistics >>
      set_flag Activated >>
      log INFO "Health statistics notifier started" []
    else
      log ERROR
        "Ports activation timed out. Aborting publishing instance activated event [IPAddress] %s [Ports] %s"
        [AStr listen_address; AInts configuration_ports]
  else
    log WARN "Instance already activated" [].

Definition publish_maintenance_mode_event : M World unit :=
  let* cfg := get_config in
  if negb (maintenance cfg) then
    log INFO "Publishing instance maintenance mode event..." [] >>
    let* instance_maintenance_mode_event :=
      construct (InstanceMaintenanceModeEvent
                   (service_name cfg) (cluster_id cfg)
                   (cluster_instance_id cfg) (member_id cfg)
                   (instance_id cfg) (network_partition_id cfg)
                   (partition_id cfg)) in
    let* publisher :=
      get_publisher (INSTANCE_STATUS_TOPIC constants
                     +:+ INSTANCE_MAINTENANCE_MODE_EVENT constants) in
    publish publisher instance_maintenance_mode_event >>
    set_flag Maintenance >>
    log INFO "Instance maintenance mode event published" []
  else
    log WARN "Instance already in a maintenance mode" [].

Definition publish_instance_ready_to_shutdown_event : M World unit :=
  let* cfg := get_config in
  if negb (ready_to_shutdown cfg) then
    log INFO "Publishing instance activated event..." [] >>
    let* instance_shutdown_event :=
      construct (InstanceReadyToShutdownEvent
                   (service_name cfg) (cluster_id cfg)
                   (cluster_instance_id cfg) (member_id cfg)
                   (instance_id cfg) (network_partition_id cfg)
                   (partition_id cfg)) in
    let* publisher :=
      get_publisher (INSTANCE_STATUS_TOPIC constants
                     +:+ INSTANCE_READY_TO_SHUTDOWN_EVENT constants) in
    publish publisher instance_shutdown_event >>
    set_flag ReadyToShutdown >>
    log INFO "Instance ReadyToShutDown event published" []
  else
    log WARN "Instance already in a ReadyToShutDown event..." [].

Definition publish_complete_topology_request_event : M World unit :=
  let* complete_topology_request_event :=
    construct CompleteTopologyRequestEvent in
  let* publisher :=
    get_publisher (INITIALIZER_TOPIC constants
                   +:+ COMPLETE_TOPOLOGY_REQUEST_EVENT constants) in
  publish publisher complete_topology_request_event >>
  log INFO "Complete topology request event published" [].

Definition publish_complete_tenant_request_event : M World unit :=
  let* complete_tenant_request_event :=
    construct CompleteTenantRequestEvent in
  let* publisher :=
    get_publisher (INITIALIZER_TOPIC constants
                   +:+ COMPLETE_TENANT_REQUEST_EVENT constants) in
  publish publisher complete_tenant_request_event >>
  log INFO "Complete tenant request event published" [].

(** The publish function of each one-shot kind. *)
Definition publish_lifecycle (k : Kind) : M World unit :=
  match k with
  | Started => publish_instance_started_event
  | Activated => publish_instance_activated_event
  | Maintenance => publish_maintenance_mode_event
  | ReadyToShutdown => publish_instance_ready_to_shutdown_event
  end.

(** *** [EventPublisher.__publish_event] *)

(** The [for mb_url in Config.mb_urls] loop; [true] stands for its
    [return True]. *)
Fixpoint sweep (net : Net) (topic payload : string)
    (auth : option (string * option string)) (urls : list string)
  : M Task bool :=
  match urls with
  | [] => ret false
  | mb_url :: rest =>
      let* endpoint := unpack2 (str_split ":" mb_url) in
      let mb_ip := fst endpoint in
      let mb_port := snd endpoint in
      let* ok := publish_single net topic payload mb_ip mb_port auth in
      if ok then
        tlog DEBUG "Event published to %s:%s" [AStr mb_ip; AStr mb_port] >>
        ret true
      else
        tlog DEBUG "Could not publish event to message broker %s:%s."
             [AStr mb_ip; AStr mb_port] >>
        sweep net topic payload auth rest
  end.

(** The [while] loop, bounded by [fuel] iterations. *)
Fixpoint retry_loop (fuel : nat) (net : Net) (cfg : Config)
    (self : EventPublisher) (payload : string)
    (auth : option (string * option string))
    (retry_iterator : IncrementalCeilingListIterator) : M Task bool :=
  match fuel with
  | O => fun t => (OutOfFuel, t)
  | S fuel' =>
      let* t := time_time net in
      if t - ep_start_time self <? mb_publisher_timeout cfg * 1000 then
        let (retry_interval, retry_iterator') :=
          get_next_retry_interval retry_iterator in
        let* published :=
          sweep net (ep_topic self) payload auth (mb_urls cfg) in
        if published then ret true
        else
          tlog DEBUG
            "Could not publish event to any of the provided message brokers. Retrying in %s seconds."
            [AInt retry_interval] >>
          time_sleep retry_interval >>
          retry_loop fuel' net cfg self payload auth retry_iterator'
      else
        tlog WARN
          "Could not publish even to any of the provided message brokers before the timeout [%s] exceeded. The event will be dropped."
          [AInt (mb_publisher_timeout cfg)] >>
        ret false
  end.

Definition publish_event (fuel : nat) (net : Net) (cfg : Config)
    (self : EventPublisher) (event : Event) : M Task bool :=
  let auth :=
    match mb_username cfg with
    | None => None
    | Some username => Some (username, mb_password cfg)
    end in
  let payload := to_json event in
  let retry_iterator := new_iterator retry_table false in
  retry_loop fuel net cfg self payload auth retry_iterator.

(** The thread started by [publish]: [__publish_event] on the object at
    address [p] of world [w], in a fresh thread world. *)
Definition run_thread (fuel : nat) (net : Net) (w : World)
    (th : loc * Event) : option (Res bool * Task) :=
  match heap w !! fst th with
  | Some self => Some (publish_event fuel net (config w) self (snd th) new_task)
  | None => None
  end.

End Agent.

(** [n] calls in sequence. *)
Fixpoint times {S} (n : nat) (m : M S unit) : M S unit :=
  match n with
  | O => ret tt
  | S n' => bind m (fun _ => times n' m)
  end.

(** ** Interleaved calls of [get_publisher]

    Threads of one Python process take turns between the evaluation steps
    of a function.  A call of [get_publisher] goes through four such steps:
    the membership test, the construction of the [EventPublisher], the
    store into the dictionary and the final lookup.  The steps are the
    operations that [get_publisher] is made of. *)

Inductive Pc :=
| AtTest
| AtConstruct
| AtStore (p : loc)
| AtLoad
| Done (r : Res loc).

Definition continue {A} (x : Res A * World) (k : A -> Pc) : Pc * World :=
  match x with
  | (Return a, w') => (k a, w')
  | (Raise e, w') => (Done (Raise e), w')
  | (OutOfFuel, w') => (Done OutOfFuel, w')
  end.

Definition step_call (topic : string) (pc : Pc) (w : World) : Pc * World :=
  match pc with
  | AtTest =>
      continue (contains_publisher topic w)
               (fun present => if negb present then AtConstruct else AtLoad)
  | AtConstruct => continue (EventPublisher_init topic w) AtStore
  | AtStore p => continue (store_publisher topic p w) (fun _ => AtLoad)
  | AtLoad => continue (load_publisher topic w) (fun p => Done (Return p))
  | Done r => (Done r, w)
  end.

(** Thread [i] takes one step; the other threads stand still. *)
Definition step (topic : string) (st : World * list Pc) (i : nat)
  : World * list Pc :=
  match snd st !! i with
  | Some pc =>
      let (pc', w') := step_call topic pc (fst st) in (w', <[i := pc']> (snd st))
  | None => st
  end.

(** A schedule names the thread that moves at each turn. *)
Definition run_schedule (topic : string) (schedule : list nat)
    (st : World * list Pc) : World * list Pc :=
  fold_left (step topic) schedule st.

(** All calls that have returned so far returned the same object. *)
Definition agree (pcs : list Pc) : Prop :=
  forall i j p q,
    pcs !! i = Some (Done (Return p)) ->
    pcs !! j = Some (Done (Return q)) -> p = q.

(** Number of [EventPublisher] objects constructed for [topic]. *)
Fixpoint constructed_for (topic : string) (h : list EventPublisher) : nat :=
  match h with
  | [] => O
  | o :: h' =>
      ((if String.eqb (ep_topic o) topic then 1 else 0)
       + constructed_for topic h')%nat
  end.

(** ** Descriptions used in the statements *)

(** The world after the first [get_publisher] call for [topic]. *)
Definition registered (topic : string) (w : World) : World :=
  {| config := config w;
     publishers := <[topic := length (heap w)]> (publishers w);
     heap := heap w ++ [{| ep_topic := topic; ep_start_time := now w |}];
     threads := threads w; now := now w; ports_active := ports_active w;
     port_wait := port_wait w;
     trace := trace w ++ [ENewPublisher (length (heap w)) topic (now w);
                          EStore topic (length (heap w))] |}.

(** An entry of [Config.mb_urls] that unpacks into host and port. *)
Definition is_endpoint (mb_url : string) : bool :=
  match str_split ":" mb_url with
  | [_; _] => true
  | _ => false
  end.

Definition endpoint (mb_url : string) : string * string :=
  match str_split ":" mb_url with
  | [a; b] => (a, b)
  | _ => (EmptyString, EmptyString)
  end.

(** The broker refuses every endpoint of [urls], the first of them being
    attempt number [n] of the thread. *)
Fixpoint all_refuse (net : Net) (n : nat) (urls : list string) : bool :=
  match urls with
  | [] => true
  | u :: rest =>
      negb (accepts net n (fst (endpoint u)) (snd (endpoint u)))
      && all_refuse net (S n) rest
  end.

(** What a thread leaves in its trace for refused endpoints. *)
Definition refusals (topic payload : string)
    (auth : option (string * option string)) (urls : list string)
  : list Effect :=
  flat_map
    (fun u =>
       [EAttempt topic payload (fst (endpoint u)) (snd (endpoint u)) auth false;
        ELog DEBUG "Could not publish event to message broker %s:%s."
             [AStr (fst (endpoint u)); AStr (snd (endpoint u))]])
    urls.

Definition after_refusals (topic payload : string)
    (auth : option (string * option string)) (urls : list string) (t : Task)
  : Task :=
  {| clock_reads := clock_reads t;
     attempts := (attempts t + length urls)%nat;
     ttrace := ttrace t ++ refusals topic payload auth urls |}.

Definition auth_of (cfg : Config) : option (string * option string) :=
  match mb_username cfg with
  | None => None
  | Some username => Some (username, mb_password cfg)
  end.

Definition drop_warning (cfg : Config) : Effect :=
  ELog WARN
    "Could not publish even to any of the provided message brokers before the timeout [%s] exceeded. The event will be dropped."
    [AInt (mb_publisher_timeout cfg)].

(** Whether a first call of the publish function of kind [k] gets past its
    gate: only the activated kind has one, the port check. *)
Definition gate_passes (py_int : string -> option Z) (k : Kind) (w : World)
  : bool :=
  match k with
  | Activated =>
      match properties (config w) !! "port.check.timeout" with
      | Some s => match py_int s with
                  | Some _ => ports_active w
                  | None => false
                  end
      | None => false
      end
  | _ => true
  end.

(** The topic and the event of each one-shot kind. *)
Definition topic_of (constants : Constants) (k : Kind) : string :=
  INSTANCE_STATUS_TOPIC constants
  +:+ match k with
      | Started => INSTANCE_STARTED_EVENT constants
      | Activated => INSTANCE_ACTIVATED_EVENT constants
      | Maintenance => INSTANCE_MAINTENANCE_MODE_EVENT constants
      | ReadyToShutdown => INSTANCE_READY_TO_SHUTDOWN_EVENT constants
      end.

Definition event_of (k : Kind) (cfg : Config) : Event :=
  match k with
  | Started =>
      InstanceStartedEvent
        (application_id cfg) (service_name cfg) (cluster_id cfg)
        (cluster_instance_id cfg) (member_id cfg) (instance_id cfg)
        (network_partition_id cfg) (partition_id cfg)
  | Activated =>
      InstanceActivatedEvent
        (service_name cfg) (cluster_id cfg) (cluster_instance_id cfg)
        (member_id cfg) (instance_id cfg) (network_partition_id cfg)
        (partition_id cfg)
  | Maintenance =>
      InstanceMaintenanceModeEvent
        (service_name cfg) (cluster_id cfg) (cluster_instance_id cfg)
        (member_id cfg) (instance_id cfg) (network_partition_id cfg)
        (partition_id cfg)
  | ReadyToShutdown =>
      InstanceReadyToShutdownEvent
        (service_name cfg) (cluster_id cfg) (cluster_instance_id cfg)
        (member_id cfg) (instance_id cfg) (network_partition_id cfg)
        (partition_id cfg)
  end.

(** Every start of the statistics task in [tr] comes after a write of the
    activated flag; [written] tells whether one came before [tr]. *)
Fixpoint started_only_after_flag (written : bool) (tr : list Effect) : bool :=
  match tr with
  | [] => true
  | e :: tr' =>
      (if is_stats_start e then written else true)
      && started_only_after_flag (written || is_set_flag Activated e) tr'
  end.

(** Two calls in sequence start exactly one delivery thread. *)
Definition two_calls_spawn_one (publish_kind : M World unit) (w : World)
  : Prop :=
  count is_spawn (trace (exec (publish_kind >> publish_kind) w))
  = S (count is_spawn (trace w)).

(** Where a call of [get_publisher] can be once the topic has a stored
    publisher [p]. *)
Definition settled (p : loc) (pc : Pc) : Prop :=
  pc = AtTest \/ pc = AtLoad \/ pc = Done (Return p).

(** The first [n] intervals handed out by an iterator. *)
Fixpoint intervals (n : nat) (it : IncrementalCeilingListIterator) : list Z :=
  match n with
  | O => []
  | S n' =>
      let (d, it') := get_next_retry_interval it in d :: intervals n' it'
  end.

(** ** Sample values for the examples *)

Definition sample_constants : Constants :=
  {| INSTANCE_STATUS_TOPIC := "instance/status/";
     INITIALIZER_TOPIC := "initializer/";
     INSTANCE_STARTED_EVENT := "InstanceStartedEvent";
     INSTANCE_ACTIVATED_EVENT := "InstanceActivatedEvent";
     INSTANCE_MAINTENANCE_MODE_EVENT := "InstanceMaintenanceModeEvent";
     INSTANCE_READY_TO_SHUTDOWN_EVENT := "InstanceReadyToShutdownEvent";
     COMPLETE_TOPOLOGY_REQUEST_EVENT := "CompleteTopologyRequestEvent";
     COMPLETE_TENANT_REQUEST_EVENT := "CompleteTenantRequestEvent";
     CEP_PUBLISHER_ENABLED := "cep.stats.publisher.enabled" |}.

(** Decimal digits only; enough for the sample properties. *)
Fixpoint digits (acc : Z) (s : string) : option Z :=
  match s with
  | EmptyString => Some acc
  | String c s' =>
      let n := Z.of_nat (nat_of_ascii c) in
      if (48 <=? n) && (n <=? 57) then digits (10 * acc + (n - 48)) s'
      else None
  end.

Definition sample_int (s : string) : option Z :=
  match s with
  | EmptyString => None
  | _ => digits 0 s
  end.

Definition sample_to_json (e : Event) : string :=
  match e with
  | InstanceStartedEvent _ _ _ _ _ _ _ _ => "{started}"
  | InstanceActivatedEvent _ _ _ _ _ _ _ => "{activated}"
  | InstanceMaintenanceModeEvent _ _ _ _ _ _ _ => "{maintenance}"
  | InstanceReadyToShutdownEvent _ _ _ _ _ _ _ => "{ready}"
  | CompleteTopologyRequestEvent => "{}"
  | CompleteTenantRequestEvent => "{}"
  end.

Definition sample_properties : gmap string string :=
  <["port.check.timeout" := "600"]>
    (<["cep.stats.publisher.enabled" := "true"]>
       (<["stats.notifier.interval" := "20"]> ∅)).

Definition sample_config : Config :=
  {| started := false; activated := false; maintenance := false;
     ready_to_shutdown := false;
     application_id := "app"; service_name := "php"; cluster_id := "php.c1";
     cluster_instance_id := "ci-1"; member_id := "m-1"; instance_id := "i-1";
     network_partition_id := "np-1"; partition_id := "p-1";
     listen_address := "localhost"; ports := [80; 443];
     mb_urls := ["mb-a:1883"; "mb-b:1883"];
     mb_username := None; mb_password := None;
     mb_publisher_timeout := 1;
     properties := sample_properties |}.

(** A freshly started agent: nothing published, ports not yet open. *)
Definition sample_world : World :=
  {| config := sample_config; publishers := ∅; heap := []; threads := [];
     now := 100; ports_active := false; port_wait := 600; trace := [] |}.

(** A broker cluster in which only [mb-b] accepts, and a clock that shows
    [101], [102], ... at successive readings. *)
Definition sample_net : Net :=
  {| clock := fun k => 101 + Z.of_nat k;
     accepts := fun _ host _ => String.eqb host "mb-b" |}.

(** Every broker down, and a clock that shows [101] at the first reading
    and has advanced, at each later reading, by the interval slept since
    the reading before. *)
Definition dead_net : Net :=
  {| clock :=
       fun k =>
         101 + fold_right Z.add 0 (intervals k (new_iterator retry_table false));
     accepts := fun _ _ _ => false |}.

Definition sample_publisher : EventPublisher :=
  {| ep_topic := "instance/status/InstanceStartedEvent"; ep_start_time := 100 |}.

(** The sample agent once its ports accept connections. *)
Definition open_world : World := set_ports_active true sample_world.

(** ** The entry points of the module, taken together *)

Inductive Call :=
| Lifecycle (k : Kind)
| TopologyRequest
| TenantRequest.

Definition entry_point (constants : Constants) (py_int : string -> option Z)
    (c : Call) : M World unit :=
  match c with
  | Lifecycle k => publish_lifecycle constants py_int k
  | TopologyRequest => publish_complete_topology_request_event constants
  | TenantRequest => publish_complete_tenant_request_event constants
  end.

Definition call_topic (constants : Constants) (c : Call) : string :=
  match c with
  | Lifecycle k => topic_of constants k
  | TopologyRequest =>
      INITIALIZER_TOPIC constants +:+ COMPLETE_TOPOLOGY_REQUEST_EVENT constants
  | TenantRequest =>
      INITIALIZER_TOPIC constants +:+ COMPLETE_TENANT_REQUEST_EVENT constants
  end.

Definition call_event (c : Call) (cfg : Config) : Event :=
  match c with
  | Lifecycle k => event_of k cfg
  | TopologyRequest => CompleteTopologyRequestEvent
  | TenantRequest => CompleteTenantRequestEvent
  end.

Definition call_flag (c : Call) : option Kind :=
  match c with
  | Lifecycle k => Some k
  | _ => None
  end.

(** The topic on which each class of event is published. *)
Definition topic_for (constants : Constants) (ev : Event) : string :=
  match ev with
  | InstanceStartedEvent _ _ _ _ _ _ _ _ => topic_of constants Started
  | InstanceActivatedEvent _ _ _ _ _ _ _ => topic_of constants Activated
  | InstanceMaintenanceModeEvent _ _ _ _ _ _ _ => topic_of constants Maintenance
  | InstanceReadyToShutdownEvent _ _ _ _ _ _ _ =>
      topic_of constants ReadyToShutdown
  | CompleteTopologyRequestEvent => call_topic constants TopologyRequest
  | CompleteTenantRequestEvent => call_topic constants TenantRequest
  end.

(** The address [get_publisher] answers for [topic] in [w]. *)
Definition publisher_of (topic : string) (w : World) : loc :=
  match publishers w !! topic with
  | Some p => p
  | None => length (heap w)
  end.

(** The world after one hand-off: the event [ev] given, at time [t'], to
    the publisher of [topic] (constructed then if the topic had none), the
    flag [fl] raised if there is one, and [added] appended to the trace. *)
Definition delivered (topic : string) (ev : Event) (fl : option Kind)
    (t' : Z) (added : list Effect) (w : World) : World :=
  {| config := match fl with
               | Some k => raise_flag k (config w)
               | None => config w
               end;
     publishers := <[topic := publisher_of topic w]> (publishers w);
     heap := heap w
             ++ match publishers w !! topic with
                | Some _ => []
                | None => [{| ep_topic := topic; ep_start_time := t' |}]
                end;
     threads := threads w ++ [(publisher_of topic w, ev)];
     now := t'; ports_active := ports_active w; port_wait := port_wait w;
     trace := trace w ++ added |}.

(** Every registered address holds a publisher of the topic it is
    registered under. *)
Definition registry_ok (w : World) : Prop :=
  forall (t : string) (p : loc),
    publishers w !! t = Some p ->
    exists o, heap w !! p = Some o /\ ep_topic o = t.

(** Every thread started so far runs on a publisher of the topic of its
    event. *)
Definition threads_ok (constants : Constants) (w : World) : Prop :=
  forall (p : loc) (ev : Event),
    In (p, ev) (threads w) ->
    exists o, heap w !! p = Some o /\ ep_topic o = topic_for constants ev.

(** A run of the agent: before each call the environment sets the clock
    and the state of the ports; an exception raised by a call is caught by
    its caller and the run goes on. *)
Definition run_script (constants : Constants) (py_int : string -> option Z)
    (script : list (Z * bool * Call)) (w : World) : World :=
  fold_left
    (fun w s =>
       exec (entry_point constants py_int (snd s))
            (set_now (fst (fst s)) (set_ports_active (snd (fst s)) w)))
    script w.

Definition kind_of_event (ev : Event) : option Kind :=
  match ev with
  | InstanceStartedEvent _ _ _ _ _ _ _ _ => Some Started
  | InstanceActivatedEvent _ _ _ _ _ _ _ => Some Activated
  | InstanceMaintenanceModeEvent _ _ _ _ _ _ _ => Some Maintenance
  | InstanceReadyToShutdownEvent _ _ _ _ _ _ _ => Some ReadyToShutdown
  | _ => None
  end.

Definition same_kind (a b : Kind) : bool :=
  match a, b with
  | Started, Started | Activated, Activated | Maintenance, Maintenance
  | ReadyToShutdown, ReadyToShutdown => true
  | _, _ => false
  end.

(** Number of threads started with an event of kind [k]. *)
Fixpoint handoffs (k : Kind) (ths : list (loc * Event)) : nat :=
  match ths with
  | [] => O
  | (_, ev) :: ths' =>
      ((match kind_of_event ev with
        | Some k' => if same_kind k k' then 1 else 0
        | None => 0
        end) + handoffs k ths')%nat
  end.

(** ** More descriptions of what a delivery thread leaves *)

(** The durations slept, in order. *)
Fixpoint sleeps (tr : list Effect) : list Z :=
  match tr with
  | [] => []
  | ESleep d :: tr' => d :: sleeps tr'
  | _ :: tr' => sleeps tr'
  end.

(** A broker attempt made on [topic] with [payload] and [auth] at an
    endpoint that is an entry of [urls]. *)
Definition attempt_conforms (topic payload : string)
    (auth : option (string * option string)) (urls : list string)
    (e : Effect) : Prop :=
  match e with
  | EAttempt tp pl host port au _ =>
      tp = topic /\ pl = payload /\ au = auth
      /\ exists u, In u urls /\ str_split ":" u = [host; port]
  | _ => True
  end.

(** Python's [sep.join(parts)] for a one-character separator. *)
Fixpoint join (sep : ascii) (parts : list string) : string :=
  match parts with
  | [] => EmptyString
  | [p] => p
  | p :: rest => p +:+ String sep (join sep rest)
  end.

(** Number of occurrences of a character. *)
Fixpoint occurrences (c : ascii) (s : string) : nat :=
  match s with
  | EmptyString => O
  | String c' s' => ((if Ascii.eqb c' c then 1 else 0) + occurrences c s')%nat
  end.

(** What holds of a call of [get_publisher] for [topic] at each of its
    steps, whatever the other calls do. *)
Definition pc_ok (topic : string) (w : World) (pc : Pc) : Prop :=
  match pc with
  | AtTest | AtConstruct => True
  | AtStore p => exists o, heap w !! p = Some o /\ ep_topic o = topic
  | AtLoad => is_Some (publishers w !! topic)
  | Done r =>
      exists p o, r = Return p /\ heap w !! p = Some o /\ ep_topic o = topic
  end.

(** The iterator after [n] intervals have been fetched. *)
Fixpoint advance (n : nat) (it : IncrementalCeilingListIterator)
  : IncrementalCeilingListIterator :=
  match n with
  | O => it
  | S n' => advance n' (snd (get_next_retry_interval it))
  end.

(** ** More sample values *)

(** A configuration without properties whose second endpoint lacks its
    port. *)
Definition bare_config : Config :=
  {| started := false; activated := false; maintenance := false;
     ready_to_shutdown := false;
     application_id := "app"; service_name := "php"; cluster_id := "php.c1";
     cluster_instance_id := "ci-1"; member_id := "m-1"; instance_id := "i-1";
     network_partition_id := "np-1"; partition_id := "p-1";
     listen_address := "localhost"; ports := [80; 443];
     mb_urls := ["mb-a:1883"; "localhost"];
     mb_username := Some "agent"; mb_password := Some "secret";
     mb_publisher_timeout := 1;
     properties := ∅ |}.

Definition bare_world : World :=
  {| config := bare_config; publishers := ∅; heap := []; threads := [];
     now := 100; ports_active := true; port_wait := 0; trace := [] |}.

(** Brokers that refuse the first three attempts and accept the fourth;
    the clock advances by two seconds between readings. *)
Definition flaky_net : Net :=
  {| clock := fun k => 101 + 2 * Z.of_nat k;
     accepts := fun i _ _ => Nat.eqb i 3 |}.

(** A thread that starts a thousand seconds after second 100. *)
Definition late_net : Net :=
  {| clock := fun _ => 1100; accepts := fun _ _ _ => true |}.

(** A short life of the agent. *)
Definition sample_script : list (Z * bool * Call) :=
  [(100, false, Lifecycle Started);
   (110, false, Lifecycle Activated);
   (120, true, TopologyRequest);
   (130, true, Lifecycle Activated);
   (140, true, TopologyRequest);
   (150, true, Lifecycle Started)].

(** A broker attempt that was accepted. *)
Definition is_accepted (e : Effect) : bool :=
  match e with
  | EAttempt _ _ _ _ _ true => true
  | _ => false
  end.

(** * Properties *)

(** ** Traces and the registry *)

(** The retry table is handed out in order and its last interval repeats. *)
Example retry_table_clamps :
  intervals 18 (new_iterator retry_table false) = retry_table ++ [60; 60; 60].
Proof. reflexivity. Qed.

Example split_endpoint : str_split ":" "mb-a:1883" = ["mb-a"; "1883"]%string.
Proof. reflexivity. Qed.

Example split_without_port :
  answer (unpack2 (str_split ":" "localhost")) new_task = Raise ValueError.
Proof. reflexivity. Qed.

Lemma count_app f a b : count f (a ++ b) = (count f a + count f b)%nat.
Proof. induction a as [|e a IH]; simpl; [reflexivity | rewrite IH; lia]. Qed.

Lemma get_publisher_present topic w p :
  publishers w !! topic = Some p -> get_publisher topic w = (Return p, w).
Proof.
  intros H. unfold get_publisher, bind, contains_publisher, load_publisher, ret.
  rewrite H, bool_decide_eq_true_2 by eauto. simpl. now rewrite H.
Qed.

Lemma get_publisher_absent topic w :
  publishers w !! topic = None ->
  get_publisher topic w = (Return (length (heap w)), registered topic w).
Proof.
  intros H. unfold get_publisher, bind, contains_publisher, load_publisher, ret.
  rewrite H, bool_decide_eq_false_2 by (intros [? ?]; congruence).
  simpl. rewrite lookup_insert_eq. unfold registered.
  now rewrite <- app_assoc.
Qed.

(** Case analysis on whether the topic of the next [get_publisher] call is
    in the dictionary. *)
Ltac run_get_publisher :=
  match goal with
  | |- context [get_publisher ?t ?w] =>
      let p := fresh "p" in
      let E := fresh "E" in
      destruct (publishers w !! t) as [p|] eqn:E;
      [ rewrite (get_publisher_present t w p E)
      | rewrite (get_publisher_absent t w E) ]
  end.

Ltac unfold_ops :=
  unfold bind, get_config, log, emit, construct, publish, set_flag,
    read_property, int_of, wait_until_ports_active, ret, raise, exec, answer.

(** C6: the first [get_publisher] call for a topic constructs an
    [EventPublisher] stamped with the current time and stores it; any later
    call for that topic, whatever the clock shows by then, returns the same
    object and leaves the whole world, the stored start time included,
    as it was. *)
Theorem get_publisher_first_then_stored (topic : string) (w : World) :
  publishers w !! topic = None ->
  let p := length (heap w) in
  get_publisher topic w = (Return p, registered topic w)
  /\ heap (registered topic w) !! p
     = Some {| ep_topic := topic; ep_start_time := now w |}
  /\ publishers (registered topic w) !! topic = Some p
  /\ (forall t' : Z,
        get_publisher topic (set_now t' (registered topic w))
        = (Return p, set_now t' (registered topic w)))
  /\ (forall w2 : World,
        publishers w2 !! topic = Some p ->
        get_publisher topic w2 = (Return p, w2)).
Proof.
  intros H p. split; [now apply get_publisher_absent|].
  assert (Hp : publishers (registered topic w) !! topic = Some p)
    by (simpl; apply lookup_insert_eq).
  repeat split.
  - simpl. rewrite lookup_app_r by (unfold p; lia).
    now replace (p - length (heap w))%nat with O by (unfold p; lia).
  - exact Hp.
  - intros t'. now apply get_publisher_present.
  - intros w2 H2. now apply get_publisher_present.
Qed.

Lemma get_publisher_first_then_stored_witness :
  publishers sample_world !! "T" = None
  /\ get_publisher "T" sample_world = (Return O, registered "T" sample_world).
Proof.
  split; [reflexivity|].
  apply (get_publisher_first_then_stored "T" sample_world). reflexivity.
Defined.

(** ** The lifecycle gate *)

Section Lifecycle.

Variable constants : Constants.
Variable py_int : string -> option Z.

Local Abbreviation publish_kind := (publish_lifecycle constants py_int).

(** A call with the flag already set logs one warning and changes
    nothing else. *)
Lemma publish_when_flag_set (k : Kind) (w : World) :
  flag k (config w) = true ->
  exists fmt,
    publish_kind k w = (Return tt, set_trace (trace w ++ [ELog WARN fmt []]) w).
Proof.
  intros H.
  destruct k; simpl in H; eexists;
    [ unfold publish_lifecycle, publish_instance_started_event
    | unfold publish_lifecycle, publish_instance_activated_event
    | unfold publish_lifecycle, publish_maintenance_mode_event
    | unfold publish_lifecycle, publish_instance_ready_to_shutdown_event ];
    unfold_ops; simpl; rewrite H; reflexivity.
Qed.

(** The effects of the activation transition when the port check
    succeeds: the hand-off, then the statistics notifier, then the flag. *)
Lemma activated_first_call (w : World) (s : string) (z : Z) :
  activated (config w) = false ->
  properties (config w) !! "port.check.timeout" = Some s ->
  py_int s = Some z ->
  ports_active w = true ->
  let ev := event_of Activated (config w) in
  exists p reg stats w',
    publish_instance_activated_event constants py_int w = (Return tt, w')
    /\ trace w'
       = trace w
         ++ [EPortCheck (listen_address (config w)) (ports (config w)) z true;
             ELog INFO "Publishing instance activated event..." [];
             EConstruct ev]
         ++ reg
         ++ [ESpawn p ev;
             ELog INFO "Instance activated event published" [];
             ELog INFO "Starting health statistics notifier" []]
         ++ stats
         ++ [ESetFlag Activated;
             ELog INFO "Health statistics notifier started" []]
    /\ (count is_spawn reg = O /\ count is_construct reg = O
        /\ count (is_set_flag Activated) reg = O
        /\ count is_stats_start reg = O)
    /\ (count is_spawn stats = O /\ count is_construct stats = O
        /\ count (is_set_flag Activated) stats = O)
    /\ (if truthy (properties (config w) !! CEP_PUBLISHER_ENABLED constants)
        then exists i,
            stats = [EStatsNew i;
                     ELog INFO "Starting Health statistics publisher with interval %r" [AInt i];
                     EStatsStart i]
        else count is_stats_start stats = O)
    /\ config w' = raise_flag Activated (config w)
    /\ threads w' = threads w ++ [(p, ev)]
    /\ publishers w' !! topic_of constants Activated = Some p.
Proof.
  intros Hf Hs Hz Hp ev.
  unfold publish_instance_activated_event, start_health_statistics.
  unfold_ops. simpl. rewrite Hf. simpl. rewrite Hs. simpl. rewrite Hz. simpl.
  rewrite Hp. simpl.
  fold (topic_of constants Activated). fold ev.
  run_get_publisher; simpl;
    destruct (truthy (properties (config w) !! CEP_PUBLISHER_ENABLED constants));
    simpl.
  - eexists p, [], [_; _; _], _. split; [reflexivity|]. simpl.
    rewrite <- !app_assoc. simpl. repeat split; eauto.
  - eexists p, [], [_], _. split; [reflexivity|]. simpl.
    rewrite <- !app_assoc. simpl. repeat split; eauto.
  - eexists _, [_; _], [_; _; _], _. split; [reflexivity|]. simpl.
    rewrite <- !app_assoc, lookup_insert_eq. simpl. repeat split; eauto.
  - eexists _, [_; _], [_], _. split; [reflexivity|]. simpl.
    rewrite <- !app_assoc, lookup_insert_eq. simpl. repeat split; eauto.
Qed.

(** A first call that gets past its gate hands exactly one event to
    the topic's publisher and then sets the flag. *)
Lemma first_call (k : Kind) (w : World) :
  flag k (config w) = false ->
  gate_passes py_int k w = true ->
  exists p added w',
    publish_kind k w = (Return tt, w')
    /\ trace w' = trace w ++ added
    /\ count is_spawn added = 1%nat
    /\ count is_construct added = 1%nat
    /\ count (is_set_flag k) added = 1%nat
    /\ config w' = raise_flag k (config w)
    /\ threads w' = threads w ++ [(p, event_of k (config w))]
    /\ publishers w' !! topic_of constants k = Some p.
Proof.
  intros Hf Hg. destruct k; simpl in Hf.
  - unfold publish_lifecycle, publish_instance_started_event.
    unfold_ops. simpl. rewrite Hf. simpl.
    fold (topic_of constants Started).
    run_get_publisher; simpl; eexists _, _, _;
      (split; [reflexivity|]); simpl; rewrite <- !app_assoc;
      rewrite ?lookup_insert_eq; simpl; repeat split; eauto.
  - unfold gate_passes in Hg.
    destruct (properties (config w) !! "port.check.timeout") as [s|] eqn:Hs;
      [|discriminate].
    destruct (py_int s) as [z|] eqn:Hz; [|discriminate].
    destruct (activated_first_call w s z Hf Hs Hz Hg)
      as (p & reg & stats & w' & Hrun & Htr & Hreg & Hst & _ & Hc & Ht & Hp).
    destruct Hreg as (r1 & r2 & r3 & _). destruct Hst as (s1 & s2 & s3).
    exists p. eexists. exists w'. simpl.
    split; [exact Hrun|]. split; [exact Htr|].
    rewrite !count_app, r1, r2, r3, s1, s2, s3. simpl. repeat split; eauto.
  - unfold publish_lifecycle, publish_maintenance_mode_event.
    unfold_ops. simpl. rewrite Hf. simpl.
    fold (topic_of constants Maintenance).
    run_get_publisher; simpl; eexists _, _, _;
      (split; [reflexivity|]); simpl; rewrite <- !app_assoc;
      rewrite ?lookup_insert_eq; simpl; repeat split; eauto.
  - unfold publish_lifecycle, publish_instance_ready_to_shutdown_event.
    unfold_ops. simpl. rewrite Hf. simpl.
    fold (topic_of constants ReadyToShutdown).
    run_get_publisher; simpl; eexists _, _, _;
      (split; [reflexivity|]); simpl; rewrite <- !app_assoc;
      rewrite ?lookup_insert_eq; simpl; repeat split; eauto.
Qed.

Lemma flag_raise_flag (k : Kind) (c : Config) : flag k (raise_flag k c) = true.
Proof. destruct k; reflexivity. Qed.

(** C2 (as amended): once the flag of a kind is set, its publish
    function only logs a warning: no event is constructed, no publisher
    is obtained, no thread is started and the world is otherwise left as
    it was.  Starting with the flag unset, a first call that gets past the
    gate (for the activated kind: the port check succeeds) followed by a
    second call, whatever the clock and the ports are by then, starts
    exactly one delivery thread. *)
Theorem lifecycle_event_published_once (k : Kind) (w : World) :
  (flag k (config w) = true ->
   exists fmt,
     publish_kind k w
     = (Return tt, set_trace (trace w ++ [ELog WARN fmt []]) w))
  /\ (flag k (config w) = false ->
      gate_passes py_int k w = true ->
      forall (t' : Z) (b' : bool),
        let w1 := exec (publish_kind k) w in
        let w1' := set_now t' (set_ports_active b' w1) in
        let w2 := exec (publish_kind k) w1' in
        flag k (config w1) = true
        /\ count is_spawn (trace w1) = S (count is_spawn (trace w))
        /\ (exists fmt, w2 = set_trace (trace w1' ++ [ELog WARN fmt []]) w1')
        /\ count is_spawn (trace w2) = S (count is_spawn (trace w))
        /\ length (threads w2) = S (length (threads w))).
Proof.
  split; [apply publish_when_flag_set|].
  intros Hf Hg t' b' w1 w1' w2.
  destruct (first_call k w Hf Hg)
    as (p & added & w' & Hrun & Htr & Hsp & _ & _ & Hc & Ht & _).
  assert (Hw1 : w1 = w') by (unfold w1, exec; now rewrite Hrun).
  assert (Hflag : flag k (config w1') = true).
  { unfold w1'. simpl. rewrite Hw1, Hc. apply flag_raise_flag. }
  destruct (publish_when_flag_set k w1' Hflag) as (fmt & Hrun2).
  assert (Hw2 : w2 = set_trace (trace w1' ++ [ELog WARN fmt []]) w1')
    by (unfold w2, exec; now rewrite Hrun2).
  assert (Hsp1 : count is_spawn (trace w1) = S (count is_spawn (trace w))).
  { rewrite Hw1, Htr, count_app, Hsp. lia. }
  split; [rewrite Hw1, Hc; apply flag_raise_flag|].
  split; [exact Hsp1|].
  split; [now exists fmt|].
  rewrite Hw2. simpl. rewrite count_app. simpl. split.
  - rewrite Hsp1. lia.
  - rewrite Hw1, Ht, length_app. simpl. lia.
Qed.

(** C3 (as amended): in the activation transition every start of the
    statistics task comes after the event has been handed to the
    publisher and immediately before the write of the activated flag:
    the flag is not yet set when the task is started.  The task is
    started exactly when the flag was unset, the port check succeeded
    and statistics publishing is enabled. *)
Theorem statistics_start_precedes_flag (w : World) :
  exists added,
    trace (exec (publish_instance_activated_event constants py_int) w)
    = trace w ++ added
    /\ if negb (activated (config w))
          && gate_passes py_int Activated w
          && truthy (properties (config w) !! CEP_PUBLISHER_ENABLED constants)
       then exists pre i,
           added = pre ++ [EStatsStart i; ESetFlag Activated;
                           ELog INFO "Health statistics notifier started" []]
           /\ count is_spawn pre = 1%nat
           /\ count (is_set_flag Activated) pre = O
           /\ count is_stats_start pre = O
       else count is_stats_start added = O.
Proof.
  destruct (activated (config w)) eqn:Hf.
  { destruct (publish_when_flag_set Activated w Hf) as (fmt & Hrun).
    simpl in Hrun. unfold exec. rewrite Hrun.
    eexists. split; [reflexivity|]. reflexivity. }
  simpl. unfold gate_passes.
  destruct (properties (config w) !! "port.check.timeout") as [s|] eqn:Hs.
  2:{ exists []. rewrite app_nil_r. split; [|reflexivity].
      unfold publish_instance_activated_event. unfold_ops. simpl.
      rewrite Hf. simpl. rewrite Hs. reflexivity. }
  destruct (py_int s) as [z|] eqn:Hz.
  2:{ exists []. rewrite app_nil_r. split; [|reflexivity].
      unfold publish_instance_activated_event. unfold_ops. simpl.
      rewrite Hf. simpl. rewrite Hs. simpl. rewrite Hz. reflexivity. }
  destruct (ports_active w) eqn:Hp.
  2:{ eexists. split.
      - unfold publish_instance_activated_event. unfold_ops. simpl.
        rewrite Hf. simpl. rewrite Hs. simpl. rewrite Hz. simpl. rewrite Hp.
        simpl. rewrite <- app_assoc. reflexivity.
      - reflexivity. }
  destruct (activated_first_call w s z Hf Hs Hz Hp)
    as (p & reg & stats & w' & Hrun & Htr & Hreg & Hst & Hen & _).
  unfold exec. rewrite Hrun. simpl. eexists. split; [exact Htr|]. simpl.
  destruct Hreg as (r1 & _ & r3 & r4). destruct Hst as (s1 & _ & s3).
  destruct (truthy _).
  - destruct Hen as (i & ->).
    eexists (_ :: _ :: _ :: reg ++ [_; _; _; _; _]), i.
    split; [simpl; rewrite <- !app_assoc; reflexivity|].
    simpl. rewrite !count_app, ?r1, ?r3, ?r4. simpl. repeat split.
  - simpl. rewrite !count_app, r4. simpl. rewrite count_app, Hen. reflexivity.
Qed.

End Lifecycle.

Section Bootstrap.

Variable constants : Constants.
Variable py_int : string -> option Z.

(** C4: when the port check answers that the ports are not active, the
    activation transition only records the check and logs an error: no
    event is constructed, no publisher is obtained or invoked, and the
    activated flag stays false.  A later call made once the ports accept
    connections returns normally, constructs one event, starts one
    delivery thread and writes the flag once. *)
Theorem activation_aborts_without_ports (w : World) (s : string) (z : Z) :
  activated (config w) = false ->
  properties (config w) !! "port.check.timeout" = Some s ->
  py_int s = Some z ->
  ports_active w = false ->
  let call := publish_instance_activated_event constants py_int in
  let w1 :=
    set_now (now w + port_wait w)
      (set_trace
         (trace w
          ++ [EPortCheck (listen_address (config w)) (ports (config w)) z false;
              ELog ERROR
                "Ports activation timed out. Aborting publishing instance activated event [IPAddress] %s [Ports] %s"
                [AStr (listen_address (config w)); AInts (ports (config w))]])
         w) in
  call w = (Return tt, w1)
  /\ activated (config w1) = false
  /\ config w1 = config w /\ publishers w1 = publishers w
  /\ heap w1 = heap w /\ threads w1 = threads w
  /\ forall t' : Z,
       let w1' := set_now t' (set_ports_active true w1) in
       let w2 := exec call w1' in
       answer call w1' = Return tt
       /\ activated (config w2) = true
       /\ count is_construct (trace w2) = S (count is_construct (trace w))
       /\ count is_spawn (trace w2) = S (count is_spawn (trace w))
       /\ count (is_set_flag Activated) (trace w2)
          = S (count (is_set_flag Activated) (trace w))
       /\ length (threads w2) = S (length (threads w)).
Proof.
  intros Hf Hs Hz Hp call w1.
  split.
  { unfold call, publish_instance_activated_event. unfold_ops. simpl.
    rewrite Hf. simpl. rewrite Hs. simpl. rewrite Hz. simpl. rewrite Hp.
    simpl. unfold w1, set_now, set_trace. simpl. rewrite <- app_assoc.
    reflexivity. }
  split; [exact Hf|]. do 4 (split; [reflexivity|]).
  intros t' w1' w2.
  assert (Hg : gate_passes py_int Activated w1' = true)
    by (unfold gate_passes; simpl; now rewrite Hs, Hz).
  destruct (first_call constants py_int Activated w1' Hf Hg)
    as (p & added & w' & Hrun & Htr & Hsp & Hco & Hfl & Hc & Ht & _).
  simpl in Hrun. fold call in Hrun.
  assert (Hw2 : w2 = w') by (unfold w2, exec; now rewrite Hrun).
  unfold answer. rewrite Hrun, Hw2, Hc, Htr, Ht. simpl.
  rewrite !count_app, Hsp, Hco, Hfl, length_app. simpl.
  repeat split; lia.
Qed.

Lemma topology_call (w : World) :
  exists p w',
    publish_complete_topology_request_event constants w = (Return tt, w')
    /\ publishers w'
       !! (INITIALIZER_TOPIC constants
           +:+ COMPLETE_TOPOLOGY_REQUEST_EVENT constants) = Some p
    /\ threads w' = threads w ++ [(p, CompleteTopologyRequestEvent)]
    /\ count is_construct (trace w') = S (count is_construct (trace w))
    /\ count is_spawn (trace w') = S (count is_spawn (trace w))
    /\ config w' = config w.
Proof.
  unfold publish_complete_topology_request_event. unfold_ops. simpl.
  run_get_publisher; simpl; eexists _, _; (split; [reflexivity|]); simpl;
    rewrite !count_app, ?lookup_insert_eq; simpl; repeat split;
    (done || lia).
Qed.

Lemma tenant_call (w : World) :
  exists p w',
    publish_complete_tenant_request_event constants w = (Return tt, w')
    /\ publishers w'
       !! (INITIALIZER_TOPIC constants
           +:+ COMPLETE_TENANT_REQUEST_EVENT constants) = Some p
    /\ threads w' = threads w ++ [(p, CompleteTenantRequestEvent)]
    /\ count is_construct (trace w') = S (count is_construct (trace w))
    /\ count is_spawn (trace w') = S (count is_spawn (trace w))
    /\ config w' = config w.
Proof.
  unfold publish_complete_tenant_request_event. unfold_ops. simpl.
  run_get_publisher; simpl; eexists _, _; (split; [reflexivity|]); simpl;
    rewrite !count_app, ?lookup_insert_eq; simpl; repeat split;
    (done || lia).
Qed.

(** Repeating a call that always starts a thread starts as many threads
    as there are calls. *)
Lemma times_spawns (m : M World unit) :
  (forall w, exists w',
      m w = (Return tt, w')
      /\ count is_construct (trace w') = S (count is_construct (trace w))
      /\ count is_spawn (trace w') = S (count is_spawn (trace w))
      /\ length (threads w') = S (length (threads w))) ->
  forall n w, exists w',
      times n m w = (Return tt, w')
      /\ count is_construct (trace w') = (count is_construct (trace w) + n)%nat
      /\ count is_spawn (trace w') = (count is_spawn (trace w) + n)%nat
      /\ length (threads w') = (length (threads w) + n)%nat.
Proof.
  intros Hm n. induction n as [|n IH]; intros w.
  - exists w. simpl. unfold ret. repeat split; lia.
  - destruct (Hm w) as (w1 & Hrun & Hc & Hs & Ht).
    destruct (IH w1) as (w2 & Hrun2 & Hc2 & Hs2 & Ht2).
    exists w2. simpl. unfold bind. rewrite Hrun, Hrun2.
    repeat split; lia.
Qed.

(** C10: the two bootstrap requests look at no flag.  Every call, in
    whatever world it is made, returns normally after it has constructed
    one event and started one delivery thread on the topic's publisher,
    and leaves the configuration, flags included, untouched; [n] calls
    in a row therefore construct [n] events and start [n] threads. *)
Theorem bootstrap_requests_unguarded (w : World) :
  (exists p w',
      publish_complete_topology_request_event constants w = (Return tt, w')
      /\ publishers w'
         !! (INITIALIZER_TOPIC constants
             +:+ COMPLETE_TOPOLOGY_REQUEST_EVENT constants) = Some p
      /\ threads w' = threads w ++ [(p, CompleteTopologyRequestEvent)]
      /\ count is_construct (trace w') = S (count is_construct (trace w))
      /\ count is_spawn (trace w') = S (count is_spawn (trace w))
      /\ config w' = config w)
  /\ (exists p w',
      publish_complete_tenant_request_event constants w = (Return tt, w')
      /\ publishers w'
         !! (INITIALIZER_TOPIC constants
             +:+ COMPLETE_TENANT_REQUEST_EVENT constants) = Some p
      /\ threads w' = threads w ++ [(p, CompleteTenantRequestEvent)]
      /\ count is_construct (trace w') = S (count is_construct (trace w))
      /\ count is_spawn (trace w') = S (count is_spawn (trace w))
      /\ config w' = config w)
  /\ (forall n : nat,
        exists w',
          times n (publish_complete_topology_request_event constants) w
          = (Return tt, w')
          /\ count is_construct (trace w')
             = (count is_construct (trace w) + n)%nat
          /\ count is_spawn (trace w') = (count is_spawn (trace w) + n)%nat
          /\ length (threads w') = (length (threads w) + n)%nat)
  /\ (forall n : nat,
        exists w',
          times n (publish_complete_tenant_request_event constants) w
          = (Return tt, w')
          /\ count is_construct (trace w')
             = (count is_construct (trace w) + n)%nat
          /\ count is_spawn (trace w') = (count is_spawn (trace w) + n)%nat
          /\ length (threads w') = (length (threads w) + n)%nat).
Proof.
  split; [apply topology_call|]. split; [apply tenant_call|]. split.
  - intros n. apply times_spawns. intros w0.
    destruct (topology_call w0) as (p & w' & Hrun & _ & Ht & Hc & Hs & _).
    exists w'. rewrite Ht, length_app. simpl. repeat split; auto; lia.
  - intros n. apply times_spawns. intros w0.
    destruct (tenant_call w0) as (p & w' & Hrun & _ & Ht & Hc & Hs & _).
    exists w'. rewrite Ht, length_app. simpl. repeat split; auto; lia.
Qed.

End Bootstrap.

(** C2, the claim as written fails: two calls of the activation
    transition made while the ports are not active start no thread. *)
Lemma two_activated_calls_may_spawn_none :
  flag Activated (config sample_world) = false
  /\ ~ two_calls_spawn_one
         (publish_lifecycle sample_constants sample_int Activated) sample_world.
Proof. split; [reflexivity|]. unfold two_calls_spawn_one. vm_compute. discriminate. Qed.

Lemma lifecycle_event_published_once_witness :
  flag Started (config sample_world) = false
  /\ gate_passes sample_int Started sample_world = true
  /\ count is_spawn
       (trace (exec (publish_lifecycle sample_constants sample_int Started)
                 (set_now 105 (set_ports_active false
                    (exec (publish_lifecycle sample_constants sample_int Started)
                          sample_world)))))
     = 1%nat.
Proof.
  split; [reflexivity|]. split; [reflexivity|].
  apply (lifecycle_event_published_once sample_constants sample_int
           Started sample_world); reflexivity.
Defined.

(** C3, the claim as written fails: with statistics publishing enabled
    the statistics task is started while the activated flag is still
    false; the flag is written afterwards. *)
Lemma statistics_started_before_flag_is_set :
  started_only_after_flag false
    (trace (exec (publish_instance_activated_event sample_constants sample_int)
              open_world))
  = false.
Proof. vm_compute. reflexivity. Qed.

Lemma activation_aborts_without_ports_witness :
  activated (config sample_world) = false
  /\ properties (config sample_world) !! "port.check.timeout" = Some "600"%string
  /\ sample_int "600" = Some 600
  /\ ports_active sample_world = false
  /\ activated
       (config (exec (publish_instance_activated_event sample_constants sample_int)
                  sample_world))
     = false.
Proof.
  do 4 (split; [reflexivity|]).
  pose proof (activation_aborts_without_ports sample_constants sample_int
                sample_world "600" 600 eq_refl eq_refl eq_refl eq_refl) as H.
  destruct H as (Hrun & Hflag & _).
  unfold exec. rewrite Hrun. exact Hflag.
Defined.

(** ** The delivery thread *)

Section Delivery.

Variable net : Net.
Variable cfg : Config.
Variable self : EventPublisher.

Local Abbreviation bound := (mb_publisher_timeout cfg * 1000).

Lemma is_endpoint_split (u : string) :
  is_endpoint u = true ->
  str_split ":" u = [fst (endpoint u); snd (endpoint u)].
Proof.
  unfold is_endpoint, endpoint.
  destruct (str_split ":" u) as [|a [|b [|c l]]]; try discriminate. reflexivity.
Qed.

Lemma count_refusals (f : Effect -> bool) topic payload auth urls :
  (forall h p, f (EAttempt topic payload h p auth false) = false) ->
  (forall fmt args, f (ELog DEBUG fmt args) = false) ->
  count f (refusals topic payload auth urls) = O.
Proof.
  intros Ha Hl. induction urls as [|u urls IH]; [reflexivity|].
  simpl. now rewrite Ha, Hl, IH.
Qed.

(** An endpoint that refuses is logged at debug level and the sweep goes
    on with the next one. *)
Lemma sweep_refused topic payload auth (pre rest : list string) :
  forall t : Task,
    forallb is_endpoint pre = true ->
    all_refuse net (attempts t) pre = true ->
    sweep net topic payload auth (pre ++ rest) t
    = sweep net topic payload auth rest (after_refusals topic payload auth pre t).
Proof.
  induction pre as [|u pre IH]; intros t Hwf Href.
  - simpl. unfold after_refusals. simpl.
    rewrite Nat.add_0_r, app_nil_r. now destruct t.
  - simpl in Hwf, Href.
    apply andb_prop in Hwf as [Hu Hwf]. apply andb_prop in Href as [Hr Href].
    apply negb_true_iff in Hr.
    simpl. unfold bind at 1. rewrite (is_endpoint_split u Hu). simpl.
    unfold bind at 1. unfold publish_single at 1. rewrite Hr.
    unfold bind at 1. unfold tlog, temit. simpl.
    rewrite IH by assumption.
    f_equal. unfold after_refusals. simpl.
    rewrite <- !app_assoc. simpl. f_equal. lia.
Qed.

(** The first endpoint that accepts ends the sweep. *)
Lemma sweep_accepted topic payload auth (u : string) (post : list string)
    (t : Task) :
  is_endpoint u = true ->
  accepts net (attempts t) (fst (endpoint u)) (snd (endpoint u)) = true ->
  sweep net topic payload auth (u :: post) t
  = (Return true,
     {| clock_reads := clock_reads t;
        attempts := S (attempts t);
        ttrace :=
          ttrace t
          ++ [EAttempt topic payload (fst (endpoint u)) (snd (endpoint u))
                auth true;
              ELog DEBUG "Event published to %s:%s"
                [AStr (fst (endpoint u)); AStr (snd (endpoint u))]] |}).
Proof.
  intros Hu Ha. simpl. unfold bind at 1. rewrite (is_endpoint_split u Hu).
  simpl. unfold bind, publish_single, tlog, temit, ret. rewrite Ha. simpl.
  now rewrite <- app_assoc.
Qed.

(** With well-formed endpoints a sweep raises nothing, reads no clock
    and logs no warning. *)
Lemma sweep_outcome topic payload auth (urls : list string) :
  forall t : Task,
    forallb is_endpoint urls = true ->
    exists (b : bool) (n : nat) (added : list Effect),
      sweep net topic payload auth urls t
      = (Return b,
         {| clock_reads := clock_reads t;
            attempts := (attempts t + n)%nat;
            ttrace := ttrace t ++ added |})
      /\ count is_warning added = O.
Proof.
  induction urls as [|u urls IH]; intros t Hwf.
  - exists false, O, []. simpl. unfold ret.
    rewrite Nat.add_0_r, app_nil_r. split; [now destruct t|reflexivity].
  - simpl in Hwf. apply andb_prop in Hwf as [Hu Hwf].
    destruct (accepts net (attempts t) (fst (endpoint u)) (snd (endpoint u)))
      eqn:Ha.
    + rewrite (sweep_accepted _ _ _ u urls t Hu Ha).
      exists true, 1%nat. eexists. split.
      * f_equal. f_equal. lia.
      * reflexivity.
    + assert (Href : all_refuse net (attempts t) [u] = true)
        by (simpl; now rewrite Ha).
      change (u :: urls) with ([u] ++ urls).
      rewrite (sweep_refused _ _ _ [u] urls t) by (simpl; auto; now rewrite Hu).
      destruct (IH (after_refusals topic payload auth [u] t) Hwf)
        as (b & n & added & Hrun & Hc).
      rewrite Hrun. exists b, (1 + n)%nat. eexists. split.
      * simpl. rewrite <- app_assoc. f_equal. f_equal. lia.
      * simpl. exact Hc.
Qed.

(** C5: in any sweep of a delivery thread that starts within the
    deadline, the endpoints are attempted in the order of [mb_urls]; when
    the endpoints [pre] refuse and the next one, [u], accepts, the thread
    returns [True] right after [u]: its trace shows the refusals of [pre]
    in order, the accepted attempt and its debug line, no attempt on the
    endpoints [post] that follow and no sleep. *)
Theorem first_accepting_endpoint_wins (fuel : nat) (payload : string)
    (auth : option (string * option string))
    (retry_iterator : IncrementalCeilingListIterator) (t : Task)
    (pre : list string) (u : string) (post : list string) :
  mb_urls cfg = pre ++ u :: post ->
  forallb is_endpoint pre = true ->
  is_endpoint u = true ->
  all_refuse net (attempts t) pre = true ->
  accepts net (attempts t + length pre)
          (fst (endpoint u)) (snd (endpoint u)) = true ->
  clock net (clock_reads t) - ep_start_time self < bound ->
  let added :=
    [EClock (clock net (clock_reads t))]
    ++ refusals (ep_topic self) payload auth pre
    ++ [EAttempt (ep_topic self) payload
          (fst (endpoint u)) (snd (endpoint u)) auth true;
        ELog DEBUG "Event published to %s:%s"
          [AStr (fst (endpoint u)); AStr (snd (endpoint u))]] in
  retry_loop (S fuel) net cfg self payload auth retry_iterator t
  = (Return true,
     {| clock_reads := S (clock_reads t);
        attempts := S (attempts t + length pre);
        ttrace := ttrace t ++ added |})
  /\ count is_attempt added = S (length pre)
  /\ count is_sleep added = O.
Proof.
  intros Hurls Hpre Hu Href Hacc Hnow added. split; [|split].
  - simpl. unfold bind at 1. unfold time_time at 1.
    apply Z.ltb_lt in Hnow. rewrite Hnow.
    destruct (get_next_retry_interval retry_iterator) as [ri it'].
    unfold bind at 1. rewrite Hurls.
    rewrite sweep_refused by (simpl; assumption).
    rewrite sweep_accepted by (simpl; assumption).
    unfold ret, added, after_refusals. simpl.
    now rewrite <- !app_assoc.
  - unfold added. simpl. rewrite count_app. simpl.
    assert (forall l, count is_attempt (refusals (ep_topic self) payload auth l)
                      = length l) as ->.
    { induction l as [|x l IH]; simpl; [reflexivity | now rewrite IH]. }
    lia.
  - unfold added. simpl. rewrite count_app. simpl.
    now rewrite count_refusals.
Qed.

(** What the loop can answer, and what it leaves, when every endpoint is
    well formed. *)
Lemma retry_loop_outcome (payload : string)
    (auth : option (string * option string)) :
  forallb is_endpoint (mb_urls cfg) = true ->
  forall (fuel : nat) (retry_iterator : IncrementalCeilingListIterator)
         (t : Task) (r : Res bool) (t' : Task),
    retry_loop fuel net cfg self payload auth retry_iterator t = (r, t') ->
    (forall e, r <> Raise e)
    /\ (r = Return false ->
        exists tr c,
          ttrace t' = ttrace t ++ tr ++ [EClock c; drop_warning cfg]
          /\ count is_warning tr = O
          /\ bound <= c - ep_start_time self).
Proof.
  intros Hwf fuel. induction fuel as [|fuel IH]; intros it t r t' Hrun.
  - simpl in Hrun. injection Hrun as <- <-. split; [discriminate|discriminate].
  - simpl in Hrun. unfold bind at 1 in Hrun. unfold time_time at 1 in Hrun.
    destruct (clock net (clock_reads t) - ep_start_time self
              <? mb_publisher_timeout cfg * 1000) eqn:Hnow.
    + destruct (get_next_retry_interval it) as [ri it'].
      unfold bind at 1 in Hrun.
      match type of Hrun with
      | context [sweep _ ?tp ?pl ?au ?us ?t0] =>
          destruct (sweep_outcome tp pl au us t0 Hwf)
            as (b & n & added & Hsw & Hc); rewrite Hsw in Hrun
      end.
      destruct b.
      * unfold ret in Hrun. injection Hrun as <- <-.
        split; [discriminate|discriminate].
      * unfold bind at 1 in Hrun. unfold tlog, temit in Hrun.
        unfold bind at 1 in Hrun. unfold time_sleep, temit in Hrun.
        simpl in Hrun.
        destruct (IH _ _ _ _ Hrun) as (Hno & Hfalse). split; [exact Hno|].
        intros Hr. destruct (Hfalse Hr) as (tr & c & Htr & Hcount & Hc').
        simpl in Htr. eexists (_ :: added ++ _ :: _ :: tr), c.
        split; [|split; [|exact Hc']].
        -- rewrite Htr. rewrite <- !app_assoc. simpl.
           rewrite <- !app_assoc. reflexivity.
        -- simpl. rewrite count_app, Hc. simpl. exact Hcount.
    + unfold bind, tlog, temit, ret in Hrun. simpl in Hrun.
      injection Hrun as <- <-. split; [discriminate|].
      intros _. exists [], (clock net (clock_reads t)). simpl.
      split; [|split; [reflexivity|]].
      * now rewrite <- app_assoc.
      * apply Z.ltb_ge in Hnow. exact Hnow.
Qed.

(** The loop ends as soon as a clock reading has reached the bound. *)
Lemma retry_loop_terminates (payload : string)
    (auth : option (string * option string)) :
  forallb is_endpoint (mb_urls cfg) = true ->
  forall (fuel j : nat) (retry_iterator : IncrementalCeilingListIterator)
         (t : Task),
    (j < fuel)%nat ->
    bound <= clock net (clock_reads t + j) - ep_start_time self ->
    answer (retry_loop fuel net cfg self payload auth retry_iterator) t
    <> OutOfFuel.
Proof.
  intros Hwf fuel. induction fuel as [|fuel IH]; intros j it t Hj Hexp; [lia|].
  unfold answer. simpl. unfold bind at 1. unfold time_time at 1.
  destruct (clock net (clock_reads t) - ep_start_time self
            <? mb_publisher_timeout cfg * 1000) eqn:Hnow.
  - destruct (get_next_retry_interval it) as [ri it'].
    unfold bind at 1.
    match goal with
    | |- context [sweep _ ?tp ?pl ?au ?us ?t0] =>
        destruct (sweep_outcome tp pl au us t0 Hwf)
          as (b & n & added & Hsw & Hc); rewrite Hsw
    end.
    destruct b; [discriminate|].
    unfold bind at 1. unfold tlog, temit. unfold bind at 1.
    unfold time_sleep, temit. simpl.
    destruct j as [|j].
    + apply Z.ltb_lt in Hnow. rewrite Nat.add_0_r in Hexp.
      lia.
    + apply (IH j); [lia|]. simpl.
      now replace (S (clock_reads t + j)) with (clock_reads t + S j)%nat by lia.
  - unfold bind, tlog, temit, ret. simpl. discriminate.
Qed.

End Delivery.

(** C9: a delivery thread that finds, at its first clock reading, that
    the seconds elapsed since the publisher was constructed have reached
    the bound of the loop, the configured timeout times 1000, attempts no
    endpoint and does not sleep: it logs the drop warning and answers
    [False]. *)
Theorem expired_deadline_drops_at_once (to_json : Event -> string)
    (fuel : nat) (net : Net) (w : World) (th : loc * Event)
    (self : EventPublisher) :
  heap w !! fst th = Some self ->
  mb_publisher_timeout (config w) * 1000 <= clock net 0 - ep_start_time self ->
  let final :=
    {| clock_reads := 1; attempts := 0;
       ttrace := [EClock (clock net 0); drop_warning (config w)] |} in
  run_thread to_json (S fuel) net w th = Some (Return false, final)
  /\ count is_attempt (ttrace final) = O
  /\ count is_sleep (ttrace final) = O
  /\ count is_warning (ttrace final) = 1%nat.
Proof.
  intros Hself Hexp final. split; [|repeat split].
  unfold run_thread. rewrite Hself. unfold publish_event. simpl.
  unfold bind at 1. unfold time_time at 1. simpl.
  apply Z.ltb_ge in Hexp. rewrite Hexp. reflexivity.
Qed.

(** The sample agent after its first lifecycle event. *)
Lemma expired_deadline_drops_at_once_witness :
  let w := exec (publish_instance_started_event sample_constants) sample_world in
  let late : Net := {| clock := fun _ => 1100; accepts := fun _ _ _ => true |} in
  threads w !! O = Some (O, event_of Started sample_config)
  /\ run_thread sample_to_json 1 late w (O, event_of Started sample_config)
     = Some (Return false,
             {| clock_reads := 1; attempts := 0;
                ttrace := [EClock 1100; drop_warning sample_config] |}).
Proof.
  intros w late. split; [reflexivity|].
  apply (expired_deadline_drops_at_once sample_to_json 0 late w
           (O, event_of Started sample_config)
           {| ep_topic := topic_of sample_constants Started;
              ep_start_time := 100 |});
    [reflexivity | vm_compute; discriminate].
Defined.

(** The example of two endpoints of which the first refuses and the
    second accepts. *)
Lemma first_accepting_endpoint_wins_witness :
  mb_urls sample_config = ["mb-a:1883"%string] ++ "mb-b:1883"%string :: []
  /\ retry_loop 1 sample_net sample_config sample_publisher "{}" None
       (new_iterator retry_table false) new_task
     = (Return true,
        {| clock_reads := 1; attempts := 2;
           ttrace :=
             [EClock 101;
              EAttempt "instance/status/InstanceStartedEvent" "{}"
                "mb-a" "1883" None false;
              ELog DEBUG "Could not publish event to message broker %s:%s."
                [AStr "mb-a"; AStr "1883"];
              EAttempt "instance/status/InstanceStartedEvent" "{}"
                "mb-b" "1883" None true;
              ELog DEBUG "Event published to %s:%s"
                [AStr "mb-b"; AStr "1883"]] |}).
Proof.
  split; [reflexivity|].
  apply (first_accepting_endpoint_wins sample_net sample_config
           sample_publisher O "{}" None (new_iterator retry_table false)
           new_task ["mb-a:1883"%string] "mb-b:1883" []);
    reflexivity.
Defined.

(** C1, the code at a failing input: timeout 1, publisher constructed at
    second 100, every broker down, first clock reading 101 and the clock
    advancing by the interval slept after each sweep.  The elapsed second
    already equals the timeout at the first test of the loop, yet the loop
    is entered, and entered again after each of the sleeps of 2, 2, 5, 5,
    ... seconds: 26 sweeps are made, and the event is dropped only at the
    reading at which 1035 seconds, more than a thousand times the timeout,
    have elapsed. *)
Lemma deadline_is_thousandfold :
  let run :=
    publish_event sample_to_json 30 dead_net sample_config sample_publisher
      CompleteTopologyRequestEvent new_task in
  mb_publisher_timeout sample_config = 1
  /\ clock dead_net 0 - ep_start_time sample_publisher = 1
  /\ clock dead_net 25 - ep_start_time sample_publisher = 975
  /\ clock dead_net 26 - ep_start_time sample_publisher = 1035
  /\ fst run = Return false
  /\ clock_reads (snd run) = 27%nat
  /\ count is_attempt (ttrace (snd run)) = 52%nat
  /\ count is_sleep (ttrace (snd run)) = 26%nat
  /\ count is_warning (ttrace (snd run)) = 1%nat.
Proof. vm_compute. repeat split; reflexivity. Qed.

(** ** Interleaved calls of the registry *)

Section Registry.

Variable topic : string.

Lemma step_settled (p : loc) (w : World) (pcs : list Pc) (i : nat) :
  publishers w !! topic = Some p ->
  Forall (settled p) pcs ->
  exists pcs', step topic (w, pcs) i = (w, pcs') /\ Forall (settled p) pcs'.
Proof.
  intros Hp Hall. unfold step. simpl.
  destruct (pcs !! i) as [pc|] eqn:Hi; [|now exists pcs].
  assert (Hpc : settled p pc).
  { eapply Forall_lookup_1; eauto. }
  destruct Hpc as [-> | [-> | ->]]; simpl.
  - unfold contains_publisher. rewrite Hp.
    rewrite bool_decide_eq_true_2 by eauto. simpl.
    eexists. split; [reflexivity|].
    apply Forall_insert; [exact Hall|]. right. now left.
  - unfold load_publisher. rewrite Hp. simpl.
    eexists. split; [reflexivity|].
    apply Forall_insert; [exact Hall|]. right. now right.
  - eexists. split; [reflexivity|].
    apply Forall_insert; [exact Hall|]. right. now right.
Qed.

Lemma schedule_settled (p : loc) (schedule : list nat) :
  forall (w : World) (pcs : list Pc),
    publishers w !! topic = Some p ->
    Forall (settled p) pcs ->
    exists pcs',
      run_schedule topic schedule (w, pcs) = (w, pcs')
      /\ Forall (settled p) pcs'.
Proof.
  induction schedule as [|i schedule IH]; intros w pcs Hp Hall.
  - now exists pcs.
  - destruct (step_settled p w pcs i Hp Hall) as (pcs1 & Hstep & Hall1).
    destruct (IH w pcs1 Hp Hall1) as (pcs2 & Hrun & Hall2).
    exists pcs2. unfold run_schedule in *. simpl. now rewrite Hstep.
Qed.

Lemma settled_agree (p : loc) (pcs : list Pc) :
  Forall (settled p) pcs ->
  (forall j r, pcs !! j = Some (Done r) -> r = Return p) /\ agree pcs.
Proof.
  intros Hall.
  assert (H : forall j r, pcs !! j = Some (Done r) -> r = Return p).
  { intros j r Hj.
    destruct (Forall_lookup_1 _ _ _ _ Hall Hj) as [H | [H | H]];
      try discriminate.
    now injection H. }
  split; [exact H|].
  intros i j a b Hi Hj. apply H in Hi. apply H in Hj. congruence.
Qed.

Lemma step_at (w : World) (pcs : list Pc) (i : nat) (pc : Pc) :
  pcs !! i = Some pc ->
  step topic (w, pcs) i
  = (snd (step_call topic pc w), <[i := fst (step_call topic pc w)]> pcs).
Proof.
  intros Hi. unfold step. simpl. rewrite Hi.
  now destruct (step_call topic pc w).
Qed.

(** A call that takes its four steps with no other call in between does
    what [get_publisher] does. *)
Lemma solo_call (w : World) (pcs : list Pc) (i : nat) :
  pcs !! i = Some AtTest ->
  run_schedule topic [i; i; i; i] (w, pcs)
  = (exec (get_publisher topic) w,
     <[i := Done (answer (get_publisher topic) w)]> pcs).
Proof.
  intros Hi.
  assert (Hlen : (i < length pcs)%nat) by (eapply lookup_lt_Some; eauto).
  assert (Hins : forall (pc : Pc) (l : list Pc),
             length l = length pcs -> <[i := pc]> l !! i = Some pc).
  { intros pc l Hl. apply list_lookup_insert_eq. lia. }
  unfold run_schedule, exec, answer. simpl.
  destruct (publishers w !! topic) as [p|] eqn:Hp.
  - rewrite (get_publisher_present _ _ _ Hp). simpl.
    rewrite (step_at w pcs i AtTest Hi). simpl.
    unfold contains_publisher. rewrite Hp.
    rewrite bool_decide_eq_true_2 by eauto. simpl.
    rewrite (step_at w _ i AtLoad) by now apply Hins. simpl.
    unfold load_publisher. rewrite Hp. simpl.
    rewrite (step_at w _ i (Done (Return p)))
      by (apply Hins; now rewrite length_insert). simpl.
    rewrite (step_at w _ i (Done (Return p)))
      by (apply Hins; now rewrite !length_insert). simpl.
    now rewrite !list_insert_insert_eq.
  - rewrite (get_publisher_absent _ _ Hp). simpl.
    rewrite (step_at w pcs i AtTest Hi). simpl.
    unfold contains_publisher. rewrite Hp.
    rewrite bool_decide_eq_false_2 by (intros [? ?]; congruence). simpl.
    rewrite (step_at w _ i AtConstruct) by now apply Hins. simpl.
    rewrite (step_at _ _ i (AtStore (length (heap w))))
      by (apply Hins; now rewrite length_insert). simpl.
    rewrite (step_at _ _ i AtLoad)
      by (apply Hins; now rewrite !length_insert). simpl.
    unfold load_publisher. simpl. rewrite lookup_insert_eq. simpl.
    rewrite !list_insert_insert_eq. unfold registered.
    now rewrite <- app_assoc.
Qed.

Lemma run_schedule_app (s1 s2 : list nat) (st : World * list Pc) :
  run_schedule topic (s1 ++ s2) st
  = run_schedule topic s2 (run_schedule topic s1 st).
Proof. unfold run_schedule. apply fold_left_app. Qed.

Lemma constructed_for_app (h1 h2 : list EventPublisher) :
  constructed_for topic (h1 ++ h2)
  = (constructed_for topic h1 + constructed_for topic h2)%nat.
Proof. induction h1 as [|o h1 IH]; simpl; [reflexivity | rewrite IH; lia]. Qed.

(** C8 (as amended): [get_publisher] takes no lock.  Calls for one
    topic that start when the topic already has a stored publisher all
    return that object and construct none, whatever their interleaving,
    and leave the world as it was.  When one call takes its four steps
    before any other call moves, the calls that follow, however they
    run_schedule, return the object that this first call returned, and at
    most one publisher is constructed for the topic. *)
Theorem get_publisher_calls_after_first_agree (w : World) (pcs : list Pc)
    (schedule : list nat) :
  Forall (fun pc => pc = AtTest) pcs ->
  (forall p : loc,
      publishers w !! topic = Some p ->
      exists pcs',
        run_schedule topic schedule (w, pcs) = (w, pcs')
        /\ (forall j r, pcs' !! j = Some (Done r) -> r = Return p)
        /\ agree pcs')
  /\ (forall i : nat,
        (i < length pcs)%nat ->
        exists p w' pcs',
          run_schedule topic ([i; i; i; i] ++ schedule) (w, pcs) = (w', pcs')
          /\ answer (get_publisher topic) w = Return p
          /\ w' = exec (get_publisher topic) w
          /\ publishers w' !! topic = Some p
          /\ (forall j r, pcs' !! j = Some (Done r) -> r = Return p)
          /\ agree pcs'
          /\ constructed_for topic (heap w')
             = (constructed_for topic (heap w)
                + match publishers w !! topic with
                  | Some _ => 0
                  | None => 1
                  end)%nat).
Proof.
  intros Hall.
  assert (Hset : forall p, Forall (settled p) pcs).
  { intros p. eapply Forall_impl; [exact Hall|]. intros pc ->. now left. }
  split.
  - intros p Hp.
    destruct (schedule_settled p schedule w pcs Hp (Hset p))
      as (pcs' & Hrun & Hall').
    exists pcs'. split; [exact Hrun|]. now apply settled_agree.
  - intros i Hi.
    assert (Hpc : pcs !! i = Some AtTest).
    { destruct (lookup_lt_is_Some_2 pcs i Hi) as [pc Hpc].
      rewrite Hpc. f_equal. exact (Forall_lookup_1 _ _ _ _ Hall Hpc). }
    rewrite run_schedule_app, (solo_call w pcs i Hpc).
    destruct (publishers w !! topic) as [p|] eqn:Hp.
    + assert (Hex : exec (get_publisher topic) w = w)
        by (unfold exec; now rewrite (get_publisher_present _ _ _ Hp)).
      assert (Han : answer (get_publisher topic) w = Return p)
        by (unfold answer; now rewrite (get_publisher_present _ _ _ Hp)).
      rewrite Hex, Han.
      assert (Hall1 : Forall (settled p) (<[i := Done (Return p)]> pcs)).
      { apply Forall_insert; [apply Hset|]. right. now right. }
      destruct (schedule_settled p schedule w _ Hp Hall1)
        as (pcs' & Hrun & Hall').
      exists p, w, pcs'. rewrite Hrun.
      destruct (settled_agree p pcs' Hall') as [H1 H2].
      repeat split; auto.
    + set (p := length (heap w)).
      assert (Hex : exec (get_publisher topic) w = registered topic w)
        by (unfold exec; now rewrite (get_publisher_absent _ _ Hp)).
      assert (Han : answer (get_publisher topic) w = Return p)
        by (unfold answer; now rewrite (get_publisher_absent _ _ Hp)).
      rewrite Hex, Han.
      assert (Hp1 : publishers (registered topic w) !! topic = Some p)
        by (simpl; apply lookup_insert_eq).
      assert (Hall1 : Forall (settled p) (<[i := Done (Return p)]> pcs)).
      { apply Forall_insert; [apply Hset|]. right. now right. }
      destruct (schedule_settled p schedule _ _ Hp1 Hall1)
        as (pcs' & Hrun & Hall').
      exists p, (registered topic w), pcs'. rewrite Hrun.
      destruct (settled_agree p pcs' Hall') as [H1 H2].
      repeat split; auto.
      simpl. rewrite constructed_for_app. simpl.
      rewrite String.eqb_refl. lia.
Qed.

End Registry.

Lemma get_publisher_calls_after_first_agree_witness :
  Forall (fun pc => pc = AtTest) [AtTest; AtTest]
  /\ exists p w' pcs',
      run_schedule "T" ([0; 0; 0; 0] ++ [1; 1; 1; 1])%nat
        (sample_world, [AtTest; AtTest]) = (w', pcs')
      /\ answer (get_publisher "T") sample_world = Return p
      /\ agree pcs'.
Proof.
  assert (H : Forall (fun pc => pc = AtTest) [AtTest; AtTest])
    by (repeat constructor).
  split; [exact H|].
  destruct (get_publisher_calls_after_first_agree "T" sample_world
              [AtTest; AtTest] [1; 1; 1; 1]%nat H) as [_ Hfirst].
  destruct (Hfirst O) as (p & w' & pcs' & Hrun & Hans & _ & _ & _ & Hag & _).
  - simpl. lia.
  - exists p, w', pcs'. repeat split; assumption.
Defined.

(** C8, the claim as written fails: when the second call makes its
    membership test before the first call has stored its publisher, each
    call constructs a publisher, and the two calls return different
    objects. *)
Lemma overlapping_first_calls_disagree :
  let final :=
    run_schedule "T" [1; 0; 0; 0; 0; 1; 1; 1]%nat
      (sample_world, [AtTest; AtTest]) in
  snd final = [Done (Return 0%nat); Done (Return 1%nat)]
  /\ ~ agree (snd final)
  /\ constructed_for "T" (heap (fst final)) = 2%nat.
Proof.
  intros final.
  assert (E : snd final = [Done (Return 0%nat); Done (Return 1%nat)])
    by (vm_compute; reflexivity).
  split; [exact E|]. split.
  - rewrite E. intros H.
    specialize (H 0%nat 1%nat 0%nat 1%nat eq_refl eq_refl). discriminate.
  - vm_compute. reflexivity.
Qed.

(** ** Every entry point, in every world *)

Lemma get_publisher_eq (topic : string) (w : World) :
  get_publisher topic w
  = (Return (publisher_of topic w),
     {| config := config w;
        publishers := <[topic := publisher_of topic w]> (publishers w);
        heap := heap w
                ++ match publishers w !! topic with
                   | Some _ => []
                   | None => [{| ep_topic := topic; ep_start_time := now w |}]
                   end;
        threads := threads w; now := now w; ports_active := ports_active w;
        port_wait := port_wait w;
        trace := trace w
                 ++ match publishers w !! topic with
                    | Some _ => []
                    | None => [ENewPublisher (length (heap w)) topic (now w);
                               EStore topic (length (heap w))]
                    end |}).
Proof.
  unfold publisher_of. destruct (publishers w !! topic) as [p|] eqn:E.
  - rewrite (get_publisher_present _ _ _ E). simpl.
    rewrite !app_nil_r, insert_id by exact E. now destruct w.
  - rewrite (get_publisher_absent _ _ E). reflexivity.
Qed.

Section EntryPoints.

Variable constants : Constants.
Variable py_int : string -> option Z.

Lemma only_trace (w : World) : set_now (now w) (set_trace (trace w ++ []) w) = w.
Proof. unfold set_now, set_trace. simpl. rewrite app_nil_r. now destruct w. Qed.

Ltac hand_off t :=
  right; exists t; eexists; split;
  [ unfold delivered; simpl; rewrite <- ?app_assoc; simpl;
    rewrite <- ?app_assoc; simpl; reflexivity
  | simpl; rewrite ?count_app; simpl;
    destruct (publishers _ !! _); simpl;
    repeat split; auto; try discriminate;
    try (intros ? [= <-]; assumption) ].

(** Whatever the world, a call of one of the six publish functions either
    leaves configuration, registry, publishers and threads as they were
    (it only appends to the trace and lets time pass), or performs exactly
    one hand-off. *)
Lemma entry_point_shape (c : Call) (w : World) :
  (exists (t' : Z) (added : list Effect),
      exec (entry_point constants py_int c) w
      = set_now t' (set_trace (trace w ++ added) w)
      /\ count is_spawn added = O
      /\ count is_construct added = O
      /\ (forall k, count (is_set_flag k) added = O)
      /\ call_flag c <> None)
  \/ (exists (t' : Z) (added : list Effect),
         entry_point constants py_int c w
         = (Return tt,
            delivered (call_topic constants c) (call_event c (config w))
              (call_flag c) t' added w)
         /\ count is_spawn added = 1%nat
         /\ count is_construct added = 1%nat
         /\ (forall k, call_flag c = Some k -> flag k (config w) = false)
         /\ (t' = now w \/ t' = now w + port_wait w)).
Proof.
  destruct c as [k| |].
  - destruct (flag k (config w)) eqn:Hf.
    + left. destruct (publish_when_flag_set constants py_int k w Hf)
        as (fmt & Hrun).
      exists (now w). eexists. simpl. unfold exec. rewrite Hrun. simpl.
      split; [reflexivity|]. repeat split; discriminate.
    + destruct k; simpl in Hf.
      * simpl. unfold publish_instance_started_event. unfold_ops. simpl.
        rewrite Hf. simpl. fold (topic_of constants Started).
        rewrite get_publisher_eq. simpl. hand_off (now w).
      * simpl. unfold publish_instance_activated_event, start_health_statistics.
        unfold_ops. simpl. rewrite Hf. simpl.
        destruct (properties (config w) !! "port.check.timeout") as [s|];
          simpl.
        2:{ left. exists (now w), []. rewrite only_trace.
            repeat split; try discriminate. }
        destruct (py_int s) as [z|]; simpl.
        2:{ left. exists (now w), []. rewrite only_trace.
            repeat split; try discriminate. }
        destruct (ports_active w); simpl.
        2:{ left. exists (now w + port_wait w). eexists.
            split; [unfold set_now, set_trace; simpl;
                    rewrite <- app_assoc; reflexivity|].
            repeat split; discriminate. }
        fold (topic_of constants Activated). rewrite get_publisher_eq. simpl.
        destruct (truthy (properties (config w) !! CEP_PUBLISHER_ENABLED constants));
          simpl; hand_off (now w + port_wait w).
      * simpl. unfold publish_maintenance_mode_event. unfold_ops. simpl.
        rewrite Hf. simpl. fold (topic_of constants Maintenance).
        rewrite get_publisher_eq. simpl. hand_off (now w).
      * simpl. unfold publish_instance_ready_to_shutdown_event. unfold_ops.
        simpl. rewrite Hf. simpl. fold (topic_of constants ReadyToShutdown).
        rewrite get_publisher_eq. simpl. hand_off (now w).
  - simpl. unfold publish_complete_topology_request_event. unfold_ops. simpl.
    rewrite get_publisher_eq. simpl. hand_off (now w).
  - simpl. unfold publish_complete_tenant_request_event. unfold_ops. simpl.
    rewrite get_publisher_eq. simpl. hand_off (now w).
Qed.

End EntryPoints.

Section Invariants.

Variable constants : Constants.
Variable py_int : string -> option Z.

Lemma topic_for_call_event (c : Call) (cfg : Config) :
  topic_for constants (call_event c cfg) = call_topic constants c.
Proof. destruct c as [[]| |]; reflexivity. Qed.

Lemma kind_of_call_event (c : Call) (cfg : Config) :
  kind_of_event (call_event c cfg) = call_flag c.
Proof. destruct c as [[]| |]; reflexivity. Qed.

Lemma handoffs_app (k : Kind) (a b : list (loc * Event)) :
  handoffs k (a ++ b) = (handoffs k a + handoffs k b)%nat.
Proof.
  induction a as [|[p ev] a IH]; simpl; [reflexivity | rewrite IH; lia].
Qed.

Lemma flag_raise_other (k k' : Kind) (c : Config) :
  same_kind k k' = false -> flag k (raise_flag k' c) = flag k c.
Proof. destruct k, k'; simpl; intros H; try discriminate; reflexivity. Qed.

Lemma same_kind_refl (k : Kind) : same_kind k k = true.
Proof. now destruct k. Qed.

Lemma raise_flag_settings (k : Kind) (c : Config) :
  raise_flag k c
  = with_flags (flag Started (raise_flag k c)) (flag Activated (raise_flag k c))
      (flag Maintenance (raise_flag k c))
      (flag ReadyToShutdown (raise_flag k c)) c.
Proof. destruct k; reflexivity. Qed.

Lemma delivered_registry_ok topic ev fl t' added (w : World) :
  registry_ok w -> registry_ok (delivered topic ev fl t' added w).
Proof.
  intros Hok t p. simpl. unfold publisher_of.
  destruct (publishers w !! topic) as [q|] eqn:E; simpl.
  - rewrite insert_id by exact E. rewrite app_nil_r. apply Hok.
  - intros H. destruct (decide (topic = t)) as [<-|Hne].
    + rewrite lookup_insert_eq in H. injection H as <-.
      exists {| ep_topic := topic; ep_start_time := t' |}.
      split; [|reflexivity].
      rewrite lookup_app_r by lia. now rewrite Nat.sub_diag.
    + rewrite lookup_insert_ne in H by exact Hne.
      destruct (Hok t p H) as (o & Ho & Ht). exists o. split; [|exact Ht].
      rewrite lookup_app_l; [exact Ho|]. eapply lookup_lt_Some; eauto.
Qed.

Lemma delivered_threads_ok topic ev fl t' added (w : World) :
  topic_for constants ev = topic ->
  registry_ok w -> threads_ok constants w ->
  threads_ok constants (delivered topic ev fl t' added w).
Proof.
  intros Htopic Hok Hth p e. simpl. rewrite in_app_iff. intros [Hin | Hin].
  - destruct (Hth p e Hin) as (o & Ho & Ht). exists o. split; [|exact Ht].
    rewrite lookup_app_l; [exact Ho|]. eapply lookup_lt_Some; eauto.
  - destruct Hin as [[= <- <-]|[]].
    destruct (delivered_registry_ok topic ev fl t' added w Hok topic
                (publisher_of topic w)) as (o & Ho & Ht).
    + simpl. apply lookup_insert_eq.
    + exists o. split; [exact Ho|]. now rewrite Htopic.
Qed.

(** One call keeps the registry and the threads well formed. *)
Lemma entry_point_well_formed (c : Call) (w : World) :
  registry_ok w -> threads_ok constants w ->
  registry_ok (exec (entry_point constants py_int c) w)
  /\ threads_ok constants (exec (entry_point constants py_int c) w).
Proof.
  intros Hok Hth.
  destruct (entry_point_shape constants py_int c w)
    as [(t' & added & Hw & _) | (t' & added & Hrun & _)].
  - rewrite Hw. split; [exact Hok | exact Hth].
  - unfold exec. rewrite Hrun. simpl. split.
    + now apply delivered_registry_ok.
    + apply delivered_threads_ok; auto. apply topic_for_call_event.
Qed.

(** X1: in any run of the agent that starts from a well-formed world,
    every registered address holds a publisher whose topic is the key it
    is registered under, every thread started runs on an existing
    publisher whose topic is the topic of the thread's event, and two
    different topics never share a publisher. *)
Theorem run_keeps_registry_and_threads_well_formed
    (script : list (Z * bool * Call)) (w : World) :
  registry_ok w -> threads_ok constants w ->
  registry_ok (run_script constants py_int script w)
  /\ threads_ok constants (run_script constants py_int script w)
  /\ (forall t1 t2 p,
        publishers (run_script constants py_int script w) !! t1 = Some p ->
        publishers (run_script constants py_int script w) !! t2 = Some p ->
        t1 = t2).
Proof.
  intros Hok Hth.
  assert (H : registry_ok (run_script constants py_int script w)
              /\ threads_ok constants (run_script constants py_int script w)).
  { revert w Hok Hth.
    induction script as [|[[t b] c] script IH]; intros w Hok Hth.
    - now split.
    - simpl. apply IH;
        apply (entry_point_well_formed c (set_now t (set_ports_active b w)));
        assumption. }
  destruct H as [Hok' Hth']. split; [exact Hok'|]. split; [exact Hth'|].
  intros t1 t2 p H1 H2.
  destruct (Hok' t1 p H1) as (o1 & Ho1 & <-).
  destruct (Hok' t2 p H2) as (o2 & Ho2 & <-).
  congruence.
Qed.

(** One call keeps what is registered and what is on the heap. *)
Lemma entry_point_keeps_publishers (c : Call) (w : World) :
  (forall t p, publishers w !! t = Some p ->
               publishers (exec (entry_point constants py_int c) w) !! t
               = Some p)
  /\ (forall p o, heap w !! p = Some o ->
                  heap (exec (entry_point constants py_int c) w) !! p = Some o).
Proof.
  destruct (entry_point_shape constants py_int c w)
    as [(t' & added & Hw & _) | (t' & added & Hrun & _)].
  - rewrite Hw. split; auto.
  - unfold exec. rewrite Hrun. unfold delivered. cbn [snd publishers heap].
    split.
    + intros t p H. unfold publisher_of.
      destruct (decide (call_topic constants c = t)) as [Heq|Hne].
      * subst t. rewrite lookup_insert_eq, H. reflexivity.
      * now rewrite lookup_insert_ne.
    + intros p o H. rewrite lookup_app_l; [exact H|].
      eapply lookup_lt_Some; eauto.
Qed.

(** X2: no run of the agent removes, replaces or re-stamps a publisher:
    a topic registered with an address stays registered with that address,
    and the object at an address, its start time included, stays the
    same. *)
Theorem run_never_refreshes_a_publisher
    (script : list (Z * bool * Call)) (w : World)
    (t : string) (p : loc) (o : EventPublisher) :
  publishers w !! t = Some p ->
  heap w !! p = Some o ->
  publishers (run_script constants py_int script w) !! t = Some p
  /\ heap (run_script constants py_int script w) !! p = Some o.
Proof.
  revert w. induction script as [|[[t0 b] c] script IH]; intros w Hp Ho.
  - now split.
  - simpl. apply IH.
    + now apply (entry_point_keeps_publishers c (set_now t0 (set_ports_active b w))).
    + now apply (entry_point_keeps_publishers c (set_now t0 (set_ports_active b w))).
Qed.

(** One call changes no setting of the configuration and clears no flag;
    the hand-offs of a kind and its unset flag never add up to more than
    before. *)
Lemma entry_point_flags (c : Call) (w : World) :
  let w' := exec (entry_point constants py_int c) w in
  (exists s a m r, config w' = with_flags s a m r (config w))
  /\ (forall k, flag k (config w) = true -> flag k (config w') = true)
  /\ (forall k,
        (handoffs k (threads w') + (if flag k (config w') then 0 else 1)
         <= handoffs k (threads w) + (if flag k (config w) then 0 else 1))%nat).
Proof.
  intros w'. unfold w'.
  destruct (entry_point_shape constants py_int c w)
    as [(t' & added & Hw & _) | (t' & added & Hrun & _ & _ & Hfl & _)].
  - rewrite Hw. simpl. split; [|split; auto].
    exists (started (config w)), (activated (config w)),
      (maintenance (config w)), (ready_to_shutdown (config w)).
    now destruct (config w).
  - unfold exec. rewrite Hrun. simpl.
    destruct (call_flag c) as [kc|] eqn:Hc.
    + specialize (Hfl kc eq_refl). split; [|split].
      * rewrite (raise_flag_settings kc). eauto.
      * intros k Hk. destruct (same_kind k kc) eqn:Hs.
        -- destruct k, kc; try discriminate; reflexivity.
        -- now rewrite flag_raise_other.
      * intros k. rewrite handoffs_app. simpl.
        rewrite kind_of_call_event, Hc.
        destruct (same_kind k kc) eqn:Hs.
        -- assert (k = kc) as -> by (destruct k, kc; try discriminate; reflexivity).
           rewrite flag_raise_flag, Hfl. lia.
        -- rewrite flag_raise_other by exact Hs. lia.
    + split; [|split; auto].
      * exists (started (config w)), (activated (config w)),
          (maintenance (config w)), (ready_to_shutdown (config w)).
        now destruct (config w).
      * intros k. rewrite handoffs_app. simpl.
        rewrite kind_of_call_event, Hc. lia.
Qed.

Lemma with_flags_twice s a m r s' a' m' r' (c : Config) :
  with_flags s a m r (with_flags s' a' m' r' c) = with_flags s a m r c.
Proof. reflexivity. Qed.

(** X3: in any run of the agent, whatever the calls, their order and
    the state of the ports, each lifecycle event is handed to a delivery
    thread at most once: the threads started with an event of kind [k] are
    at most one more than before the run if the flag of [k] was unset, and
    no more than before if it was set. *)
Theorem run_hands_each_kind_off_at_most_once
    (script : list (Z * bool * Call)) (w : World) (k : Kind) :
  (handoffs k (threads (run_script constants py_int script w))
   <= handoffs k (threads w) + (if flag k (config w) then 0 else 1))%nat.
Proof.
  assert (H : (handoffs k (threads (run_script constants py_int script w))
               + (if flag k (config (run_script constants py_int script w))
                  then 0 else 1)
               <= handoffs k (threads w)
                  + (if flag k (config w) then 0 else 1))%nat).
  { revert w. induction script as [|[[t b] c] script IH]; intros w.
    - simpl. lia.
    - simpl. etransitivity; [apply IH|].
      destruct (entry_point_flags c (set_now t (set_ports_active b w)))
        as (_ & _ & Hpot).
      apply (Hpot k). }
  lia.
Qed.

(** X4: no run of the agent clears a flag or changes a setting of the
    configuration: the configuration after the run is the one before it
    with other flag values, and a flag that was set is still set. *)
Theorem run_only_raises_flags
    (script : list (Z * bool * Call)) (w : World) :
  exists s a m r,
    config (run_script constants py_int script w)
    = with_flags s a m r (config w)
    /\ implb (started (config w)) s = true
    /\ implb (activated (config w)) a = true
    /\ implb (maintenance (config w)) m = true
    /\ implb (ready_to_shutdown (config w)) r = true.
Proof.
  revert w. induction script as [|[[t b] c] script IH]; intros w.
  - exists (started (config w)), (activated (config w)),
      (maintenance (config w)), (ready_to_shutdown (config w)).
    simpl. split; [now destruct (config w)|].
    repeat split; apply implb_same.
  - simpl.
    destruct (entry_point_flags c (set_now t (set_ports_active b w)))
      as ((s1 & a1 & m1 & r1 & Hc) & Hmono & _).
    destruct (IH (exec (entry_point constants py_int c)
                    (set_now t (set_ports_active b w))))
      as (s & a & m & r & Hc2 & Hs & Ha & Hm & Hr).
    exists s, a, m, r. rewrite Hc2, Hc. simpl. split; [reflexivity|].
    pose proof (Hmono Started) as M1. pose proof (Hmono Activated) as M2.
    pose proof (Hmono Maintenance) as M3.
    pose proof (Hmono ReadyToShutdown) as M4.
    rewrite Hc in *. simpl in *.
    repeat split.
    + destruct (started (config w)); [rewrite M1 in Hs by reflexivity; exact Hs | reflexivity].
    + destruct (activated (config w)); [rewrite M2 in Ha by reflexivity; exact Ha | reflexivity].
    + destruct (maintenance (config w)); [rewrite M3 in Hm by reflexivity; exact Hm | reflexivity].
    + destruct (ready_to_shutdown (config w)); [rewrite M4 in Hr by reflexivity; exact Hr | reflexivity].
Qed.

End Invariants.

(** ** More on the delivery thread *)

Section Sweeps.

Variable net : Net.
Variable cfg : Config.
Variable self : EventPublisher.

Local Abbreviation bound := (mb_publisher_timeout cfg * 1000).

Lemma not_endpoint_raises {S} (u : string) (s : S) :
  is_endpoint u = false ->
  unpack2 (str_split ":" u) s = (Raise ValueError, s).
Proof.
  unfold is_endpoint, unpack2, raise.
  destruct (str_split ":" u) as [|a [|b [|c l]]]; try discriminate; reflexivity.
Qed.

(** X5: an entry of [mb_urls] that does not unpack into host and port
    ends the delivery thread with a [ValueError]: the unpacking is outside
    the [try] block.  The endpoints before it have been attempted; the
    entry itself and those after it are not, and neither the retry sleep
    nor the drop warning is reached. *)
Theorem malformed_endpoint_raises (fuel : nat) (payload : string)
    (auth : option (string * option string))
    (retry_iterator : IncrementalCeilingListIterator) (t : Task)
    (pre : list string) (u : string) (post : list string) :
  mb_urls cfg = pre ++ u :: post ->
  forallb is_endpoint pre = true ->
  is_endpoint u = false ->
  all_refuse net (attempts t) pre = true ->
  clock net (clock_reads t) - ep_start_time self < bound ->
  retry_loop (S fuel) net cfg self payload auth retry_iterator t
  = (Raise ValueError,
     {| clock_reads := S (clock_reads t);
        attempts := (attempts t + length pre)%nat;
        ttrace := ttrace t
                  ++ [EClock (clock net (clock_reads t))]
                  ++ refusals (ep_topic self) payload auth pre |}).
Proof.
  intros Hurls Hpre Hu Href Hnow.
  simpl. unfold bind at 1. unfold time_time at 1.
  apply Z.ltb_lt in Hnow. rewrite Hnow.
  destruct (get_next_retry_interval retry_iterator) as [ri it'].
  unfold bind at 1. rewrite Hurls.
  rewrite sweep_refused by (simpl; assumption).
  simpl. unfold bind at 1. rewrite (not_endpoint_raises u _ Hu).
  unfold after_refusals. simpl. now rewrite <- !app_assoc.
Qed.

Lemma sleeps_app (a b : list Effect) : sleeps (a ++ b) = sleeps a ++ sleeps b.
Proof.
  induction a as [|e a IH]; simpl; [reflexivity|].
  destruct e; simpl; now rewrite ?IH.
Qed.

Lemma sleeps_refusals topic payload auth (urls : list string) :
  sleeps (refusals topic payload auth urls) = [].
Proof. induction urls as [|u urls IH]; simpl; [reflexivity | exact IH]. Qed.

Lemma count_attempt_refusals topic payload auth (urls : list string) :
  count is_attempt (refusals topic payload auth urls) = length urls.
Proof. induction urls as [|u urls IH]; simpl; [reflexivity | now rewrite IH]. Qed.

(** A sweep in which every endpoint refuses attempts them all. *)
Lemma sweep_all_refused topic payload auth (urls : list string) (t : Task) :
  forallb is_endpoint urls = true ->
  all_refuse net (attempts t) urls = true ->
  sweep net topic payload auth urls t
  = (Return false, after_refusals topic payload auth urls t).
Proof.
  intros Hwf Href.
  pose proof (sweep_refused net topic payload auth urls [] t Hwf Href) as H.
  rewrite app_nil_r in H. exact H.
Qed.

(** One turn of the loop. *)
Lemma retry_loop_turn (fuel : nat) (payload : string)
    (auth : option (string * option string))
    (retry_iterator : IncrementalCeilingListIterator) (t : Task) :
  retry_loop (S fuel) net cfg self payload auth retry_iterator t
  = let t1 :=
      {| clock_reads := S (clock_reads t); attempts := attempts t;
         ttrace := ttrace t ++ [EClock (clock net (clock_reads t))] |} in
    if clock net (clock_reads t) - ep_start_time self <? bound then
      match sweep net (ep_topic self) payload auth (mb_urls cfg) t1 with
      | (Return true, t2) => (Return true, t2)
      | (Return false, t2) =>
          retry_loop fuel net cfg self payload auth
            (snd (get_next_retry_interval retry_iterator))
            {| clock_reads := clock_reads t2; attempts := attempts t2;
               ttrace :=
                 ttrace t2
                 ++ [ELog DEBUG
                       "Could not publish event to any of the provided message brokers. Retrying in %s seconds."
                       [AInt (fst (get_next_retry_interval retry_iterator))];
                     ESleep (fst (get_next_retry_interval retry_iterator))] |}
      | (Raise e, t2) => (Raise e, t2)
      | (OutOfFuel, t2) => (OutOfFuel, t2)
      end
    else
      (Return false,
       {| clock_reads := S (clock_reads t); attempts := attempts t;
          ttrace := ttrace t
                    ++ [EClock (clock net (clock_reads t)); drop_warning cfg] |}).
Proof.
  cbn [retry_loop]. unfold bind at 1. unfold time_time at 1. cbv zeta.
  destruct (clock net (clock_reads t) - ep_start_time self <? bound).
  - destruct (get_next_retry_interval retry_iterator) as [ri it'].
    unfold bind at 1.
    destruct (sweep net (ep_topic self) payload auth (mb_urls cfg) _)
      as [[[]|e|] t2]; try reflexivity.
    unfold bind, tlog, time_sleep, temit. simpl.
    now rewrite <- app_assoc.
  - unfold bind, tlog, temit, ret, drop_warning. simpl.
    now rewrite <- app_assoc.
Qed.

(** A run in which every endpoint refuses, from any point of the loop. *)
Lemma refused_run (payload : string) (auth : option (string * option string))
    (extra : nat) :
  forallb is_endpoint (mb_urls cfg) = true ->
  (forall i u, all_refuse net i [u] = true) ->
  forall (n : nat) (retry_iterator : IncrementalCeilingListIterator) (t : Task),
    (forall j, (j < n)%nat ->
               clock net (clock_reads t + j) - ep_start_time self < bound) ->
    bound <= clock net (clock_reads t + n) - ep_start_time self ->
    exists t',
      retry_loop (S (n + extra)) net cfg self payload auth retry_iterator t
      = (Return false, t')
      /\ clock_reads t' = (clock_reads t + S n)%nat
      /\ attempts t' = (attempts t + n * length (mb_urls cfg))%nat
      /\ sleeps (ttrace t') = sleeps (ttrace t) ++ intervals n retry_iterator
      /\ count is_attempt (ttrace t')
         = (count is_attempt (ttrace t) + n * length (mb_urls cfg))%nat
      /\ count is_warning (ttrace t') = S (count is_warning (ttrace t)).
Proof.
  intros Hwf Hdead n. induction n as [|n IH]; intros it t Hin Hout.
  - rewrite Nat.add_0_r in Hout. apply Z.ltb_ge in Hout.
    rewrite retry_loop_turn. cbv zeta. rewrite Hout.
    eexists. split; [reflexivity|].
    simpl. rewrite sleeps_app, !count_app. simpl.
    rewrite app_nil_r. repeat split; lia.
  - assert (Hnow : clock net (clock_reads t) - ep_start_time self < bound).
    { specialize (Hin O). rewrite Nat.add_0_r in Hin. apply Hin. lia. }
    apply Z.ltb_lt in Hnow.
    assert (Hall : forall l i, all_refuse net i l = true).
    { induction l as [|u l IHl]; intros i; [reflexivity|].
      simpl. specialize (Hdead i u). simpl in Hdead.
      rewrite andb_true_r in Hdead. now rewrite Hdead, IHl. }
    change (S (S n + extra)) with (S (S (n + extra))).
    rewrite retry_loop_turn. cbv zeta. rewrite Hnow.
    rewrite sweep_all_refused by (auto; apply Hall).
    cbn [intervals].
    destruct (get_next_retry_interval it) as [ri it'].
    cbn [fst snd].
    match goal with
    | |- context [retry_loop _ _ _ _ _ _ _ ?t0] =>
        destruct (IH it' t0) as (t' & Hrun & Hc & Ha & Hs & Hn & Hw)
    end.
    + intros j Hj. simpl.
      replace (S (clock_reads t + j)) with (clock_reads t + S j)%nat by lia.
      apply Hin. lia.
    + simpl.
      now replace (S (clock_reads t + n)) with (clock_reads t + S n)%nat by lia.
    + exists t'. split; [exact Hrun|]. simpl in Hc, Ha, Hs, Hn, Hw.
      rewrite Hc, Ha, Hs, Hn, Hw.
      rewrite !sleeps_app, !count_app, sleeps_refusals, count_attempt_refusals.
      simpl. rewrite (count_refusals is_warning) by reflexivity.
      rewrite <- !app_assoc. simpl. repeat split; lia.
Qed.

(** The turn of the loop in which an endpoint accepts. *)
Lemma loop_first_accept (fuel : nat) (payload : string)
    (auth : option (string * option string))
    (retry_iterator : IncrementalCeilingListIterator) (t : Task)
    (pre : list string) (u : string) (post : list string) :
  mb_urls cfg = pre ++ u :: post ->
  forallb is_endpoint pre = true ->
  is_endpoint u = true ->
  all_refuse net (attempts t) pre = true ->
  accepts net (attempts t + length pre)
          (fst (endpoint u)) (snd (endpoint u)) = true ->
  clock net (clock_reads t) - ep_start_time self < bound ->
  retry_loop (S fuel) net cfg self payload auth retry_iterator t
  = (Return true,
     {| clock_reads := S (clock_reads t);
        attempts := S (attempts t + length pre);
        ttrace :=
          ttrace t
          ++ [EClock (clock net (clock_reads t))]
          ++ refusals (ep_topic self) payload auth pre
          ++ [EAttempt (ep_topic self) payload
                (fst (endpoint u)) (snd (endpoint u)) auth true;
              ELog DEBUG "Event published to %s:%s"
                [AStr (fst (endpoint u)); AStr (snd (endpoint u))]] |}).
Proof.
  intros Hurls Hpre Hu Href Hacc Hnow.
  rewrite retry_loop_turn. cbv zeta. apply Z.ltb_lt in Hnow. rewrite Hnow.
  rewrite Hurls, sweep_refused by (simpl; assumption).
  rewrite sweep_accepted by (simpl; assumption).
  unfold after_refusals. simpl. now rewrite <- !app_assoc.
Qed.

End Sweeps.

Section Runs.

Variable to_json : Event -> string.
Variable net : Net.
Variable cfg : Config.
Variable self : EventPublisher.
Variable event : Event.

Local Abbreviation bound := (mb_publisher_timeout cfg * 1000).

(** X6: when every broker refuses every attempt, the delivery thread
    sweeps the whole endpoint list once for each clock reading that is
    within the bound, sleeps after each sweep for the interval that the one
    iterator of the call hands out next, and at the first reading that has
    reached the bound logs its single warning and answers [False]. *)
Theorem refused_thread_backs_off_until_deadline (n extra : nat) :
  forallb is_endpoint (mb_urls cfg) = true ->
  (forall i host port, accepts net i host port = false) ->
  (forall j, (j < n)%nat -> clock net j - ep_start_time self < bound) ->
  bound <= clock net n - ep_start_time self ->
  exists t',
    publish_event to_json (S (n + extra)) net cfg self event new_task
    = (Return false, t')
    /\ clock_reads t' = S n
    /\ attempts t' = (n * length (mb_urls cfg))%nat
    /\ count is_attempt (ttrace t') = (n * length (mb_urls cfg))%nat
    /\ sleeps (ttrace t') = intervals n (new_iterator retry_table false)
    /\ count is_warning (ttrace t') = 1%nat.
Proof.
  intros Hwf Hdead Hin Hout. unfold publish_event.
  destruct (refused_run net cfg self (to_json event) (auth_of cfg) extra Hwf)
    with (n := n) (retry_iterator := new_iterator retry_table false)
         (t := new_task)
    as (t' & Hrun & Hc & Ha & Hs & Hn & Hw).
  - intros i u. simpl. now rewrite Hdead.
  - exact Hin.
  - exact Hout.
  - exists t'. split; [exact Hrun|]. simpl in *. repeat split; assumption.
Qed.

Lemma sweep_conforms (topic payload : string)
    (auth : option (string * option string)) (urls : list string) :
  forall (some : list string) (t : Task),
    (forall u, In u some -> In u urls) ->
    Forall (attempt_conforms topic payload auth urls) (ttrace t) ->
    Forall (attempt_conforms topic payload auth urls)
      (ttrace (snd (sweep net topic payload auth some t))).
Proof.
  induction some as [|u some IH]; intros t Hin Hall; [exact Hall|].
  cbn [sweep]. unfold bind at 1.
  destruct (str_split ":" u) as [|a [|b [|c l]]] eqn:E; try exact Hall.
  cbn [unpack2]. unfold ret at 1. cbn [fst snd].
  unfold bind at 1. unfold publish_single at 1.
  assert (Hnew : attempt_conforms topic payload auth urls
                   (EAttempt topic payload a b auth
                      (accepts net (attempts t) a b))).
  { simpl. repeat split. exists u. split; [apply Hin; now left | exact E]. }
  destruct (accepts net (attempts t) a b).
  - unfold bind, tlog, temit, ret. simpl.
    apply Forall_app_2; [apply Forall_app_2; [exact Hall|]|].
    + constructor; [exact Hnew | constructor].
    + constructor; [exact I | constructor].
  - unfold bind at 1. unfold tlog at 1. unfold temit at 1.
    apply IH; [intros v Hv; apply Hin; now right|].
    simpl.
    apply Forall_app_2; [apply Forall_app_2; [exact Hall|]|].
    + constructor; [exact Hnew | constructor].
    + constructor; [exact I | constructor].
Qed.

Lemma retry_loop_conforms (payload : string)
    (auth : option (string * option string)) :
  forall (fuel : nat) (retry_iterator : IncrementalCeilingListIterator)
         (t : Task),
    Forall (attempt_conforms (ep_topic self) payload auth (mb_urls cfg))
      (ttrace t) ->
    Forall (attempt_conforms (ep_topic self) payload auth (mb_urls cfg))
      (ttrace (snd (retry_loop fuel net cfg self payload auth retry_iterator t))).
Proof.
  induction fuel as [|fuel IH]; intros it t Hall; [exact Hall|].
  rewrite retry_loop_turn. cbv zeta.
  destruct (clock net (clock_reads t) - ep_start_time self <? bound).
  - assert (Hclock :
        Forall (attempt_conforms (ep_topic self) payload auth (mb_urls cfg))
          (ttrace t ++ [EClock (clock net (clock_reads t))])).
    { apply Forall_app_2; [exact Hall|].
      constructor; [exact I | constructor]. }
    match goal with
    | |- context [sweep _ ?tp ?pl ?au ?us ?t0] =>
        pose proof (sweep_conforms tp pl au us us t0 (fun u H => H) Hclock)
          as Hsw;
        destruct (sweep net tp pl au us t0) as [[[]|e|] t2]
    end; simpl in Hsw; try exact Hsw.
    apply IH. simpl. apply Forall_app_2; [exact Hsw|].
    constructor; [exact I|].
    constructor; [exact I | constructor].
  - simpl. apply Forall_app_2; [exact Hall|].
    constructor; [exact I|].
    constructor; [exact I | constructor].
Qed.

(** X7: whatever the brokers answer and however long the thread runs,
    every attempt of a delivery thread is made on the topic of its
    publisher, with the one payload serialized from the event and the
    credentials of the configuration, at a host and port that are the two
    parts of an entry of [mb_urls]. *)
Theorem thread_attempts_only_configured_endpoints (fuel : nat) :
  Forall (attempt_conforms (ep_topic self) (to_json event) (auth_of cfg)
            (mb_urls cfg))
    (ttrace (snd (publish_event to_json fuel net cfg self event new_task))).
Proof. unfold publish_event. apply retry_loop_conforms. constructor. Qed.

End Runs.

(** ** From the call to the broker *)

Section EndToEnd.

Variable constants : Constants.
Variable py_int : string -> option Z.
Variable to_json : Event -> string.
Variable net : Net.

Lemma raise_flag_broker_settings (k : Kind) (c : Config) :
  mb_urls (raise_flag k c) = mb_urls c
  /\ mb_publisher_timeout (raise_flag k c) = mb_publisher_timeout c
  /\ auth_of (raise_flag k c) = auth_of c.
Proof. destruct k; repeat split. Qed.

(** What a call that started a thread has done. *)
Lemma handed_off (c : Call) (w : World) (th : loc * Event) :
  threads (exec (entry_point constants py_int c) w) = threads w ++ [th] ->
  exists t' added,
    exec (entry_point constants py_int c) w
    = delivered (call_topic constants c) (call_event c (config w))
        (call_flag c) t' added w
    /\ th = (publisher_of (call_topic constants c) w, call_event c (config w)).
Proof.
  intros Hth.
  destruct (entry_point_shape constants py_int c w)
    as [(t' & added & Hw & _) | (t' & added & Hrun & _)].
  - rewrite Hw in Hth. simpl in Hth.
    apply (f_equal (@length _)) in Hth. rewrite length_app in Hth.
    simpl in Hth. lia.
  - unfold exec in *. rewrite Hrun in *. simpl in Hth.
    apply app_inv_head in Hth. injection Hth as <-.
    exists t', added. split; reflexivity.
Qed.

Lemma delivered_broker_settings topic ev fl t' added (w : World) :
  mb_urls (config (delivered topic ev fl t' added w)) = mb_urls (config w)
  /\ mb_publisher_timeout (config (delivered topic ev fl t' added w))
     = mb_publisher_timeout (config w)
  /\ auth_of (config (delivered topic ev fl t' added w)) = auth_of (config w).
Proof.
  simpl. destruct fl as [k|]; [apply raise_flag_broker_settings|].
  repeat split.
Qed.

(** X8: from the call to the broker.  When a call of a publish function
    on a topic that has no publisher yet starts a thread, that thread
    carries the publisher constructed by the call and the event of the
    call; if its first clock reading is within the bound counted from the
    end of the call, and the endpoints [pre] refuse while the next one
    accepts, the thread answers [True] after it has offered the serialized
    event, on the topic of the call and with the configured credentials,
    to the endpoints of [pre] and then to the accepting one. *)
Theorem first_use_event_reaches_accepting_broker (c : Call) (w : World)
    (th : loc * Event) (fuel : nat)
    (pre : list string) (u : string) (post : list string) :
  let w' := exec (entry_point constants py_int c) w in
  let topic := call_topic constants c in
  let payload := to_json (call_event c (config w)) in
  publishers w !! topic = None ->
  threads w' = threads w ++ [th] ->
  mb_urls (config w) = pre ++ u :: post ->
  forallb is_endpoint pre = true ->
  is_endpoint u = true ->
  all_refuse net 0 pre = true ->
  accepts net (length pre) (fst (endpoint u)) (snd (endpoint u)) = true ->
  clock net 0 - now w' < mb_publisher_timeout (config w) * 1000 ->
  th = (length (heap w), call_event c (config w))
  /\ run_thread to_json (S fuel) net w' th
     = Some (Return true,
             {| clock_reads := 1;
                attempts := S (length pre);
                ttrace :=
                  [EClock (clock net 0)]
                  ++ refusals topic payload (auth_of (config w)) pre
                  ++ [EAttempt topic payload
                        (fst (endpoint u)) (snd (endpoint u))
                        (auth_of (config w)) true;
                      ELog DEBUG "Event published to %s:%s"
                        [AStr (fst (endpoint u));
                         AStr (snd (endpoint u))]] |}).
Proof.
  intros w' topic payload. subst w' topic payload.
  intros Hnone Hth Hurls Hpre Hu Href Hacc Hnow.
  destruct (handed_off c w th Hth) as (t' & added & Hw & ->).
  rewrite Hw in *. clear Hw.
  set (wd := delivered (call_topic constants c) (call_event c (config w))
               (call_flag c) t' added w) in *.
  destruct (delivered_broker_settings (call_topic constants c)
              (call_event c (config w)) (call_flag c) t' added w)
    as (Hu1 & Hu2 & Hu3).
  fold wd in Hu1, Hu2, Hu3.
  unfold publisher_of. rewrite Hnone. split; [reflexivity|].
  assert (Hself :
      heap wd !! length (heap w)
      = Some {| ep_topic := call_topic constants c; ep_start_time := t' |}).
  { unfold wd. simpl. rewrite Hnone. rewrite lookup_app_r by lia.
    now rewrite Nat.sub_diag. }
  unfold run_thread. cbn [fst snd]. unfold loc in *. rewrite Hself.
  unfold publish_event.
  fold (auth_of (config wd)). rewrite Hu3.
  rewrite (loop_first_accept net _ _ fuel _ _ _ new_task pre u post);
    try assumption.
  - reflexivity.
  - now rewrite Hu1.
  - rewrite Hu2. exact Hnow.
Qed.

(** X9: the deadline is counted from the construction of the publisher,
    not from the call.  When a call starts a thread on a topic whose
    publisher is already registered, the thread runs on that publisher,
    and if the first clock reading of the thread finds the age of the
    publisher at or above the bound, the event just handed over is dropped
    with no attempt at all. *)
Theorem stale_publisher_drops_fresh_event (c : Call) (w : World)
    (th : loc * Event) (p : loc) (self : EventPublisher) (fuel : nat) :
  let w' := exec (entry_point constants py_int c) w in
  publishers w !! call_topic constants c = Some p ->
  heap w !! p = Some self ->
  threads w' = threads w ++ [th] ->
  mb_publisher_timeout (config w) * 1000 <= clock net 0 - ep_start_time self ->
  th = (p, call_event c (config w))
  /\ run_thread to_json (S fuel) net w' th
     = Some (Return false,
             {| clock_reads := 1; attempts := 0;
                ttrace := [EClock (clock net 0); drop_warning (config w)] |}).
Proof.
  intros w'. subst w'. intros Hp Hself Hth Hexp.
  destruct (handed_off c w th Hth) as (t' & added & Hw & ->).
  rewrite Hw in *. clear Hw.
  set (wd := delivered (call_topic constants c) (call_event c (config w))
               (call_flag c) t' added w) in *.
  destruct (delivered_broker_settings (call_topic constants c)
              (call_event c (config w)) (call_flag c) t' added w)
    as (Hu1 & Hu2 & Hu3).
  fold wd in Hu1, Hu2, Hu3.
  unfold publisher_of. rewrite Hp. split; [reflexivity|].
  unfold loc in *.
  assert (Hheap : heap wd !! p = Some self).
  { unfold wd. simpl. rewrite lookup_app_l; [exact Hself|].
    eapply lookup_lt_Some; eauto. }
  unfold run_thread. cbn [fst snd]. unfold loc in *. rewrite Hheap.
  unfold publish_event.
  rewrite retry_loop_turn. cbv zeta. rewrite Hu2.
  apply Z.ltb_ge in Hexp. cbn [clock_reads new_task]. rewrite Hexp.
  unfold drop_warning. now rewrite Hu2.
Qed.

(** X12: the activation transition converts the [port.check.timeout]
    property with [int] before anything else.  With the flag unset, a
    property that is absent raises [TypeError] and one that is not a
    number raises [ValueError]; in both cases the exception leaves the
    function before the port check: the world, trace and flag included, is
    exactly as it was. *)
Theorem activation_without_timeout_property_raises (w : World) :
  activated (config w) = false ->
  match properties (config w) !! "port.check.timeout" with
  | None =>
      publish_instance_activated_event constants py_int w = (Raise TypeError, w)
  | Some s =>
      py_int s = None ->
      publish_instance_activated_event constants py_int w = (Raise ValueError, w)
  end.
Proof.
  intros Hf. unfold publish_instance_activated_event. unfold_ops. simpl.
  rewrite Hf. simpl.
  destruct (properties (config w) !! "port.check.timeout") as [s|];
    [|reflexivity].
  intros Hs. simpl. now rewrite Hs.
Qed.

End EndToEnd.

(** ** Interleaved calls, whatever the schedule *)

Section AnySchedule.

Variable topic : string.

Lemma pc_ok_grows (w w' : World) (pc : Pc) :
  (forall p o, heap w !! p = Some o -> heap w' !! p = Some o) ->
  (is_Some (publishers w !! topic) -> is_Some (publishers w' !! topic)) ->
  pc_ok topic w pc -> pc_ok topic w' pc.
Proof.
  intros Hheap Hreg. destruct pc as [| |p| |r]; simpl; auto.
  - intros (o & Ho & Ht). exists o. auto.
  - intros (p & o & Hr & Ho & Ht). exists p, o. auto.
Qed.

Lemma step_call_ok (pc : Pc) (w : World) :
  registry_ok w ->
  pc_ok topic w pc ->
  registry_ok (snd (step_call topic pc w))
  /\ pc_ok topic (snd (step_call topic pc w)) (fst (step_call topic pc w))
  /\ (forall p o, heap w !! p = Some o ->
                  heap (snd (step_call topic pc w)) !! p = Some o)
  /\ (is_Some (publishers w !! topic) ->
      is_Some (publishers (snd (step_call topic pc w)) !! topic)).
Proof.
  intros Hok Hpc. unfold loc in *. destruct pc as [| |p| |r]; simpl in *.
  - unfold contains_publisher. simpl.
    destruct (bool_decide (is_Some (publishers w !! topic))) eqn:E; simpl.
    + apply bool_decide_eq_true_1 in E. auto.
    + auto.
  - repeat split.
    + intros t p H. simpl in H. destruct (Hok t p H) as (o & Ho & Ht).
      exists o. split; [|exact Ht]. simpl.
      rewrite lookup_app_l; [exact Ho|]. eapply lookup_lt_Some; eauto.
    + exists {| ep_topic := topic; ep_start_time := now w |}.
      split; [|reflexivity].
      rewrite lookup_app_r by lia. now rewrite Nat.sub_diag.
    + intros p o H. rewrite lookup_app_l; [exact H|].
      eapply lookup_lt_Some; eauto.
    + auto.
  - destruct Hpc as (o & Ho & Ht). repeat split.
    + intros t q H. simpl in H. destruct (decide (topic = t)) as [<-|Hne].
      * rewrite lookup_insert_eq in H. injection H as <-. exists o. auto.
      * rewrite lookup_insert_ne in H by exact Hne. apply Hok, H.
    + rewrite lookup_insert_eq. eauto.
    + auto.
    + intros _. rewrite lookup_insert_eq. eauto.
  - unfold load_publisher. destruct Hpc as [p Hp]. rewrite Hp. simpl.
    repeat split; auto. destruct (Hok topic p Hp) as (o & Ho & Ht).
    exists p, o. auto.
  - auto.
Qed.

Lemma step_ok (st : World * list Pc) (i : nat) :
  registry_ok (fst st) ->
  Forall (pc_ok topic (fst st)) (snd st) ->
  registry_ok (fst (step topic st i))
  /\ Forall (pc_ok topic (fst (step topic st i))) (snd (step topic st i)).
Proof.
  destruct st as [w pcs]. simpl. intros Hok Hall. unfold step. simpl.
  destruct (pcs !! i) as [pc|] eqn:Hi; [|now split].
  destruct (step_call_ok pc w Hok (Forall_lookup_1 _ _ _ _ Hall Hi))
    as (Hok' & Hpc' & Hheap & Hreg).
  destruct (step_call topic pc w) as [pc' w']. simpl in *.
  split; [exact Hok'|].
  apply Forall_insert; [|exact Hpc'].
  eapply Forall_impl; [exact Hall|]. intros x. now apply pc_ok_grows.
Qed.

(** X10: [get_publisher] takes no lock, yet under every interleaving of
    calls for one topic, started in a world whose registry is well formed,
    no call raises, every call that has returned has returned a publisher
    whose topic is the requested one, and the registry stays well formed:
    a race can construct one publisher too many, never hand out a
    publisher of another topic. *)
Theorem interleaved_calls_return_publishers_of_topic (w : World)
    (pcs : list Pc) (schedule : list nat) :
  registry_ok w ->
  Forall (fun pc => pc = AtTest) pcs ->
  registry_ok (fst (run_schedule topic schedule (w, pcs)))
  /\ forall j r,
       snd (run_schedule topic schedule (w, pcs)) !! j = Some (Done r) ->
       exists p o,
         r = Return p
         /\ heap (fst (run_schedule topic schedule (w, pcs))) !! p = Some o
         /\ ep_topic o = topic.
Proof.
  intros Hok Hall.
  assert (Hinit : Forall (pc_ok topic (fst (w, pcs))) (snd (w, pcs))).
  { simpl. eapply Forall_impl; [exact Hall|]. intros pc ->. exact I. }
  assert (H : forall st,
             registry_ok (fst st) -> Forall (pc_ok topic (fst st)) (snd st) ->
             registry_ok (fst (run_schedule topic schedule st))
             /\ Forall (pc_ok topic (fst (run_schedule topic schedule st)))
                  (snd (run_schedule topic schedule st))).
  { induction schedule as [|i sched IH]; intros st H1 H2; [now split|].
    unfold run_schedule in *. simpl.
    destruct (step_ok st i H1 H2) as [H1' H2']. now apply IH. }
  destruct (H (w, pcs) Hok Hinit) as [Hok' Hall'].
  split; [exact Hok'|].
  intros j r Hj. exact (Forall_lookup_1 _ _ _ _ Hall' Hj).
Qed.

End AnySchedule.

(** ** Endpoints *)

Lemma str_split_cons (sep : ascii) (s : string) :
  exists h t, str_split sep s = h :: t.
Proof.
  induction s as [|c s IH]; simpl; [eauto|].
  destruct (Ascii.eqb c sep); [eauto|].
  destruct IH as (h & t & ->). eauto.
Qed.

Lemma join_str_split (sep : ascii) (s : string) :
  join sep (str_split sep s) = s.
Proof.
  induction s as [|c s IH]; [reflexivity|].
  simpl. destruct (Ascii.eqb c sep) eqn:E.
  - apply Ascii.eqb_eq in E. subst c.
    destruct (str_split_cons sep s) as (h & t & Hs). rewrite Hs in *.
    change (join sep (EmptyString :: h :: t))
      with (String sep (join sep (h :: t))).
    now rewrite IH.
  - destruct (str_split_cons sep s) as (h & t & Hs). rewrite Hs in *.
    destruct t as [|h' t]; [simpl in *; now rewrite IH|].
    change (join sep (String c h :: h' :: t))
      with (String c (h +:+ String sep (join sep (h' :: t)))).
    change (join sep (h :: h' :: t))
      with (h +:+ String sep (join sep (h' :: t))) in IH.
    now rewrite IH.
Qed.

Lemma length_str_split (sep : ascii) (s : string) :
  length (str_split sep s) = S (occurrences sep s).
Proof.
  induction s as [|c s IH]; [reflexivity|].
  simpl. destruct (Ascii.eqb c sep); simpl.
  - now rewrite IH.
  - destruct (str_split_cons sep s) as (h & t & Hs). rewrite Hs in *.
    simpl in *. exact IH.
Qed.

Lemma str_split_parts (sep : ascii) (s : string) :
  Forall (fun part => occurrences sep part = O) (str_split sep s).
Proof.
  induction s as [|c s IH]; simpl; [repeat constructor|].
  destruct (Ascii.eqb c sep) eqn:E.
  - constructor; [reflexivity | exact IH].
  - destruct (str_split_cons sep s) as (h & t & Hs). rewrite Hs in *.
    inversion IH; subst. constructor; [|assumption].
    simpl. now rewrite E.
Qed.

(** X11: an entry of [mb_urls] unpacks into host and port exactly when
    it contains one colon; host and port are then the text before and
    after that colon: neither contains a colon, and host, colon and port
    put together give the entry back. *)
Theorem endpoint_is_text_around_single_colon (mb_url : string) :
  is_endpoint mb_url = Nat.eqb (occurrences ":" mb_url) 1
  /\ (is_endpoint mb_url = true ->
      str_split ":" mb_url = [fst (endpoint mb_url); snd (endpoint mb_url)]
      /\ mb_url = fst (endpoint mb_url) +:+ ":" +:+ snd (endpoint mb_url)
      /\ occurrences ":" (fst (endpoint mb_url)) = O
      /\ occurrences ":" (snd (endpoint mb_url)) = O).
Proof.
  pose proof (length_str_split ":" mb_url) as Hlen.
  pose proof (join_str_split ":" mb_url) as Hjoin.
  pose proof (str_split_parts ":" mb_url) as Hparts.
  unfold is_endpoint, endpoint.
  destruct (str_split ":" mb_url) as [|a [|b [|c l]]]; simpl in Hlen.
  - discriminate.
  - injection Hlen as <-. split; [reflexivity | discriminate].
  - injection Hlen as <-. split; [reflexivity|]. intros _. simpl.
    inversion Hparts as [|? ? Ha Hrest]; subst.
    inversion Hrest as [|? ? Hb _]; subst.
    repeat split; auto.
  - injection Hlen as Hlen. rewrite <- Hlen. split; [reflexivity | discriminate].
Qed.

(** ** Retries that end in a delivery *)

Section Retries.

Variable to_json : Event -> string.
Variable net : Net.
Variable cfg : Config.
Variable self : EventPublisher.
Variable event : Event.

Local Abbreviation bound := (mb_publisher_timeout cfg * 1000).

Lemma all_refuse_range (urls : list string) :
  forall a : nat,
    (forall i host port,
        (a <= i < a + length urls)%nat -> accepts net i host port = false) ->
    all_refuse net a urls = true.
Proof.
  induction urls as [|u urls IH]; intros a H; [reflexivity|].
  simpl. rewrite H by (simpl; lia). simpl.
  apply IH. intros i host port Hi. apply H. simpl. lia.
Qed.

Lemma intervals_advance (n : nat) :
  forall it : IncrementalCeilingListIterator,
    intervals (S n) it
    = intervals n it ++ [fst (get_next_retry_interval (advance n it))].
Proof.
  induction n as [|n IH]; intros it.
  - simpl. now destruct (get_next_retry_interval it).
  - change (intervals (S (S n)) it)
      with (let (d, it') := get_next_retry_interval it in
            d :: intervals (S n) it').
    change (intervals (S n) it)
      with (let (d, it') := get_next_retry_interval it in
            d :: intervals n it').
    change (advance (S n) it)
      with (advance n (snd (get_next_retry_interval it))).
    destruct (get_next_retry_interval it) as [d it'].
    cbn [snd]. now rewrite IH.
Qed.

(** [n] sweeps in which every endpoint refuses bring the loop, [n] turns
    later, to a state with [n] more clock readings, [n] sleeps and no
    warning. *)
Lemma refused_turns (payload : string)
    (auth : option (string * option string)) :
  forallb is_endpoint (mb_urls cfg) = true ->
  forall (n : nat) (retry_iterator : IncrementalCeilingListIterator) (t : Task),
    (forall j, (j < n)%nat ->
               clock net (clock_reads t + j) - ep_start_time self < bound) ->
    (forall i host port,
        (attempts t <= i < attempts t + n * length (mb_urls cfg))%nat ->
        accepts net i host port = false) ->
    exists t_n,
      (forall fuel,
          retry_loop (n + fuel) net cfg self payload auth retry_iterator t
          = retry_loop fuel net cfg self payload auth
              (advance n retry_iterator) t_n)
      /\ clock_reads t_n = (clock_reads t + n)%nat
      /\ attempts t_n = (attempts t + n * length (mb_urls cfg))%nat
      /\ sleeps (ttrace t_n) = sleeps (ttrace t) ++ intervals n retry_iterator
      /\ count is_attempt (ttrace t_n)
         = (count is_attempt (ttrace t) + n * length (mb_urls cfg))%nat
      /\ count is_warning (ttrace t_n) = count is_warning (ttrace t).
Proof.
  intros Hwf n. induction n as [|n IH]; intros it t Hin Hdead.
  - exists t. simpl. rewrite app_nil_r. repeat split; lia.
  - assert (Hnow : clock net (clock_reads t) - ep_start_time self < bound).
    { specialize (Hin O). rewrite Nat.add_0_r in Hin. apply Hin. lia. }
    apply Z.ltb_lt in Hnow.
    assert (Href : all_refuse net (attempts t) (mb_urls cfg) = true).
    { apply all_refuse_range. intros i host port Hi. apply Hdead. simpl. lia. }
    destruct (get_next_retry_interval it) as [d it'] eqn:E.
    set (t1 := {| clock_reads := S (clock_reads t); attempts := attempts t;
                  ttrace := ttrace t ++ [EClock (clock net (clock_reads t))] |}).
    set (t2 := after_refusals (ep_topic self) payload auth (mb_urls cfg) t1).
    set (t3 := {| clock_reads := clock_reads t2; attempts := attempts t2;
                  ttrace :=
                    ttrace t2
                    ++ [ELog DEBUG
                          "Could not publish event to any of the provided message brokers. Retrying in %s seconds."
                          [AInt d];
                        ESleep d] |}).
    destruct (IH it' t3) as (t_n & Hrun & Hc & Ha & Hs & Hn & Hw).
    + intros j Hj. simpl.
      replace (S (clock_reads t + j)) with (clock_reads t + S j)%nat by lia.
      apply Hin. lia.
    + intros i host port Hi. apply Hdead. simpl in Hi. simpl. lia.
    + exists t_n. split; [|split; [|split; [|split; [|split]]]].
      * intros fuel. change (S n + fuel)%nat with (S (n + fuel)).
        rewrite retry_loop_turn. cbv zeta. rewrite Hnow, E. cbn [fst snd].
        fold t1. rewrite sweep_all_refused by (auto; exact Href).
        fold t2. fold t3.
        change (advance (S n) it)
          with (advance n (snd (get_next_retry_interval it))).
        rewrite E. apply Hrun.
      * rewrite Hc. simpl. lia.
      * rewrite Ha. simpl. lia.
      * rewrite Hs.
        change (intervals (S n) it)
          with (let (d0, it0) := get_next_retry_interval it in
                d0 :: intervals n it0).
        rewrite E. unfold t3, t2, t1, after_refusals. cbn [ttrace].
        rewrite !sleeps_app, sleeps_refusals. cbn [sleeps].
        rewrite !app_nil_r, <- app_assoc. reflexivity.
      * rewrite Hn. simpl.
        rewrite !count_app, count_attempt_refusals. simpl. lia.
      * rewrite Hw. simpl.
        rewrite !count_app, (count_refusals is_warning) by reflexivity.
        simpl. lia.
Qed.

(** X13: the retry does what it is there for.  When every attempt of the
    first [n] sweeps is refused, the clock stays within the bound, and in
    the next sweep the endpoints [pre] refuse while the one after them
    accepts, the delivery thread answers [True]: it has read the clock
    [n + 1] times, slept [n] times, for the intervals the iterator handed
    out in order, and logged no warning. *)
Theorem retried_event_is_delivered (n extra : nat)
    (pre : list string) (u : string) (post : list string) :
  forallb is_endpoint (mb_urls cfg) = true ->
  mb_urls cfg = pre ++ u :: post ->
  (forall j, (j <= n)%nat -> clock net j - ep_start_time self < bound) ->
  (forall i host port,
      (i < n * length (mb_urls cfg) + length pre)%nat ->
      accepts net i host port = false) ->
  accepts net (n * length (mb_urls cfg) + length pre)
          (fst (endpoint u)) (snd (endpoint u)) = true ->
  exists t',
    publish_event to_json (n + S extra) net cfg self event new_task
    = (Return true, t')
    /\ clock_reads t' = S n
    /\ attempts t' = S (n * length (mb_urls cfg) + length pre)
    /\ sleeps (ttrace t') = intervals n (new_iterator retry_table false)
    /\ count is_warning (ttrace t') = O.
Proof.
  intros Hwf Hurls Hin Hdead Hacc. unfold publish_event.
  destruct (refused_turns (to_json event) (auth_of cfg) Hwf n
              (new_iterator retry_table false) new_task)
    as (t_n & Hrun & Hc & Ha & Hs & _ & Hw).
  - intros j Hj. apply Hin. simpl. lia.
  - intros i host port Hi. apply Hdead. simpl in Hi. lia.
  - simpl in Hc, Ha, Hs, Hw.
    assert (Hpre : forallb is_endpoint pre = true /\ is_endpoint u = true).
    { rewrite Hurls, forallb_app in Hwf. apply andb_prop in Hwf as [H1 H2].
      simpl in H2. apply andb_prop in H2 as [H2 _]. now split. }
    destruct Hpre as [Hpre Hu].
    fold (auth_of cfg). rewrite Hrun.
    rewrite (loop_first_accept net cfg self extra _ _ _ t_n pre u post);
      try assumption.
    + eexists. split; [reflexivity|]. cbn [clock_reads attempts ttrace].
      rewrite !sleeps_app, !count_app, sleeps_refusals.
      rewrite (count_refusals is_warning) by reflexivity.
      rewrite Hc, Ha, Hs, Hw. simpl.
      rewrite !app_nil_r. repeat split; lia.
    + apply all_refuse_range. intros i host port Hi. apply Hdead. lia.
    + now rewrite Ha.
    + rewrite Hc. apply Hin. lia.
Qed.

End Retries.

(** ** The statements at sample values *)

Lemma run_keeps_registry_and_threads_well_formed_witness :
  registry_ok (run_script sample_constants sample_int sample_script sample_world)
  /\ length (threads (run_script sample_constants sample_int sample_script
                        sample_world)) = 4%nat.
Proof.
  split; [|reflexivity].
  apply (run_keeps_registry_and_threads_well_formed sample_constants sample_int
           sample_script sample_world).
  - intros t p H. simpl in H. rewrite lookup_empty in H. discriminate.
  - intros p ev [].
Defined.

Lemma run_never_refreshes_a_publisher_witness :
  publishers (registered "T" sample_world) !! "T" = Some O
  /\ heap (run_script sample_constants sample_int sample_script
             (registered "T" sample_world)) !! O
     = Some {| ep_topic := "T"; ep_start_time := 100 |}.
Proof.
  split; [reflexivity|].
  apply (run_never_refreshes_a_publisher sample_constants sample_int
           sample_script (registered "T" sample_world) "T" O
           {| ep_topic := "T"; ep_start_time := 100 |});
    reflexivity.
Defined.

Lemma malformed_endpoint_raises_witness :
  is_endpoint "localhost" = false
  /\ fst (retry_loop 1 dead_net bare_config sample_publisher "{}" None
            (new_iterator retry_table false) new_task)
     = Raise ValueError.
Proof.
  split; [reflexivity|].
  rewrite (malformed_endpoint_raises dead_net bare_config sample_publisher O
             "{}" None (new_iterator retry_table false) new_task
             ["mb-a:1883"%string] "localhost" []);
    reflexivity.
Defined.

Lemma refused_thread_backs_off_until_deadline_witness :
  forallb is_endpoint (mb_urls sample_config) = true
  /\ exists t',
      publish_event sample_to_json 27 dead_net sample_config sample_publisher
        CompleteTopologyRequestEvent new_task = (Return false, t')
      /\ sleeps (ttrace t') = intervals 26 (new_iterator retry_table false).
Proof.
  split; [reflexivity|].
  destruct (refused_thread_backs_off_until_deadline sample_to_json dead_net
              sample_config sample_publisher CompleteTopologyRequestEvent
              26 0)
    as (t' & Hrun & _ & _ & _ & Hs & _).
  - reflexivity.
  - reflexivity.
  - intros j Hj.
    do 26 (destruct j as [|j]; [vm_compute; reflexivity|]). lia.
  - vm_compute. discriminate.
  - exists t'. split; assumption.
Defined.

Lemma first_use_event_reaches_accepting_broker_witness :
  publishers sample_world !! call_topic sample_constants (Lifecycle Started)
  = None
  /\ fst <$> run_thread sample_to_json 1 sample_net
               (exec (entry_point sample_constants sample_int (Lifecycle Started))
                     sample_world)
               (O, event_of Started sample_config)
     = Some (Return true).
Proof.
  split; [reflexivity|].
  destruct (first_use_event_reaches_accepting_broker sample_constants
              sample_int sample_to_json sample_net (Lifecycle Started)
              sample_world (O, event_of Started sample_config) O
              ["mb-a:1883"%string] "mb-b:1883" []
              eq_refl eq_refl eq_refl eq_refl eq_refl eq_refl eq_refl eq_refl)
    as [_ Hrun].
  rewrite Hrun. reflexivity.
Defined.

Lemma stale_publisher_drops_fresh_event_witness :
  let w := exec (publish_complete_topology_request_event sample_constants)
             sample_world in
  publishers w !! call_topic sample_constants TopologyRequest = Some O
  /\ run_thread sample_to_json 1 late_net
       (exec (entry_point sample_constants sample_int TopologyRequest) w)
       (O, CompleteTopologyRequestEvent)
     = Some (Return false,
             {| clock_reads := 1; attempts := 0;
                ttrace := [EClock 1100; drop_warning sample_config] |}).
Proof.
  intros w. split; [reflexivity|].
  apply (stale_publisher_drops_fresh_event sample_constants sample_int
           sample_to_json late_net TopologyRequest w
           (O, CompleteTopologyRequestEvent) O
           {| ep_topic := call_topic sample_constants TopologyRequest;
              ep_start_time := 100 |} O);
    first [reflexivity | vm_compute; discriminate].
Defined.

Lemma interleaved_calls_return_publishers_of_topic_witness :
  Forall (fun pc => pc = AtTest) [AtTest; AtTest]
  /\ registry_ok
       (fst (run_schedule "T" [1; 0; 0; 0; 0; 1; 1; 1]%nat
               (sample_world, [AtTest; AtTest]))).
Proof.
  assert (H : Forall (fun pc => pc = AtTest) [AtTest; AtTest])
    by (repeat constructor).
  split; [exact H|].
  apply (interleaved_calls_return_publishers_of_topic "T" sample_world
           [AtTest; AtTest] [1; 0; 0; 0; 0; 1; 1; 1]%nat).
  - intros t p Hp. simpl in Hp. rewrite lookup_empty in Hp. discriminate.
  - exact H.
Defined.

Lemma endpoint_is_text_around_single_colon_witness :
  is_endpoint "mb-a:1883" = true
  /\ "mb-a:1883"%string
     = fst (endpoint "mb-a:1883") +:+ ":" +:+ snd (endpoint "mb-a:1883").
Proof.
  split; [reflexivity|].
  destruct (endpoint_is_text_around_single_colon "mb-a:1883") as [_ H].
  destruct (H eq_refl) as (_ & Hjoin & _). exact Hjoin.
Defined.

Lemma activation_without_timeout_property_raises_witness :
  activated (config bare_world) = false
  /\ publish_instance_activated_event sample_constants sample_int bare_world
     = (Raise TypeError, bare_world).
Proof.
  split; [reflexivity|].
  apply (activation_without_timeout_property_raises sample_constants
           sample_int bare_world).
  reflexivity.
Defined.

Lemma retried_event_is_delivered_witness :
  mb_urls sample_config = ["mb-a:1883"%string] ++ "mb-b:1883"%string :: []
  /\ exists t',
      publish_event sample_to_json 2 flaky_net sample_config sample_publisher
        CompleteTopologyRequestEvent new_task = (Return true, t')
      /\ sleeps (ttrace t') = [2].
Proof.
  split; [reflexivity|].
  destruct (retried_event_is_delivered sample_to_json flaky_net sample_config
              sample_publisher CompleteTopologyRequestEvent 1 0
              ["mb-a:1883"%string] "mb-b:1883" [])
    as (t' & Hrun & _ & _ & Hs & _).
  - reflexivity.
  - reflexivity.
  - intros j Hj. do 2 (destruct j as [|j]; [vm_compute; reflexivity|]). lia.
  - intros i host port Hi. simpl in Hi.
    do 3 (destruct i as [|i]; [reflexivity|]). lia.
  - reflexivity.
  - exists t'. split; [exact Hrun | exact Hs].
Defined.

(** ** How a delivery thread can end *)

Section Failures.

Variable to_json : Event -> string.
Variable net : Net.
Variable cfg : Config.
Variable self : EventPublisher.
Variable event : Event.

Local Abbreviation bound := (mb_publisher_timeout cfg * 1000).

Lemma count_accepted_refusals topic payload auth (urls : list string) :
  count is_accepted (refusals topic payload auth urls) = O.
Proof. induction urls as [|u urls IH]; simpl; [reflexivity | exact IH]. Qed.

(** What a sweep over well-formed endpoints answers and leaves. *)
Lemma sweep_answers topic payload auth (urls : list string) :
  forall t : Task,
    forallb is_endpoint urls = true ->
    exists (b : bool) (t' : Task) (added : list Effect),
      sweep net topic payload auth urls t = (Return b, t')
      /\ clock_reads t' = clock_reads t
      /\ ttrace t' = ttrace t ++ added
      /\ count is_warning added = O
      /\ if b
         then exists tr host port,
             added = tr ++ [EAttempt topic payload host port auth true;
                            ELog DEBUG "Event published to %s:%s"
                              [AStr host; AStr port]]
             /\ count is_accepted tr = O
         else count is_accepted added = O.
Proof.
  induction urls as [|u urls IH]; intros t Hwf.
  - exists false, t, []. simpl. unfold ret. rewrite app_nil_r.
    repeat split.
  - simpl in Hwf. apply andb_prop in Hwf as [Hu Hwf].
    destruct (accepts net (attempts t) (fst (endpoint u)) (snd (endpoint u)))
      eqn:Ha.
    + rewrite (sweep_accepted net topic payload auth u urls t Hu Ha).
      eexists true, _, _. split; [reflexivity|]. simpl.
      split; [reflexivity|]. split; [reflexivity|]. split; [reflexivity|].
      exists [], (fst (endpoint u)), (snd (endpoint u)). split; reflexivity.
    + assert (Href : all_refuse net (attempts t) [u] = true)
        by (simpl; now rewrite Ha).
      change (u :: urls) with ([u] ++ urls).
      rewrite (sweep_refused net topic payload auth [u] urls t)
        by (simpl; auto; now rewrite Hu).
      destruct (IH (after_refusals topic payload auth [u] t) Hwf)
        as (b & t' & added & Hrun & Hc & Htr & Hw & Hb).
      exists b, t'. eexists. split; [exact Hrun|].
      split; [exact Hc|]. split.
      * rewrite Htr. simpl. rewrite <- app_assoc. reflexivity.
      * simpl. split; [exact Hw|]. destruct b.
        -- destruct Hb as (tr & host & port & -> & Hacc).
           eexists (_ :: _ :: tr), host, port. split; [reflexivity|].
           simpl. exact Hacc.
        -- exact Hb.
Qed.

(** What the loop answers and leaves when every endpoint is well
    formed. *)
Lemma retry_loop_answers (payload : string)
    (auth : option (string * option string)) :
  forallb is_endpoint (mb_urls cfg) = true ->
  forall (fuel : nat) (retry_iterator : IncrementalCeilingListIterator)
         (t : Task) (r : Res bool) (t' : Task),
    retry_loop fuel net cfg self payload auth retry_iterator t = (r, t') ->
    match r with
    | Return true =>
        exists tr host port,
          ttrace t'
          = ttrace t ++ tr
            ++ [EAttempt (ep_topic self) payload host port auth true;
                ELog DEBUG "Event published to %s:%s" [AStr host; AStr port]]
          /\ count is_warning tr = O
          /\ count is_accepted tr = O
    | Return false =>
        exists tr c,
          ttrace t' = ttrace t ++ tr ++ [EClock c; drop_warning cfg]
          /\ count is_warning tr = O
          /\ count is_accepted tr = O
          /\ bound <= c - ep_start_time self
    | Raise _ => False
    | OutOfFuel => True
    end.
Proof.
  intros Hwf fuel. induction fuel as [|fuel IH]; intros it t r t' Hrun.
  - simpl in Hrun. injection Hrun as <- <-. exact I.
  - rewrite retry_loop_turn in Hrun. cbv zeta in Hrun.
    destruct (clock net (clock_reads t) - ep_start_time self <? bound)
      eqn:Hnow.
    + match type of Hrun with
      | context [sweep _ ?tp ?pl ?au ?us ?t0] =>
          destruct (sweep_answers tp pl au us t0 Hwf)
            as (b & t2 & added & Hsw & _ & Htr & Hw & Hb);
          rewrite Hsw in Hrun
      end.
      simpl in Htr. destruct b.
      * injection Hrun as <- <-.
        destruct Hb as (tr & host & port & -> & Hacc).
        exists (EClock (clock net (clock_reads t)) :: tr), host, port.
        split; [|split].
        -- rewrite Htr, <- ?app_assoc. reflexivity.
        -- rewrite count_app in Hw. simpl in *. lia.
        -- simpl. exact Hacc.
      * apply IH in Hrun. destruct r as [[]|e|]; try exact Hrun.
        -- destruct Hrun as (tr & host & port & Hrun & Hw' & Hacc').
           eexists (_ :: added ++ _ :: _ :: tr), host, port.
           split; [|split].
           ++ rewrite Hrun. simpl. rewrite Htr, <- ?app_assoc. simpl.
              rewrite <- ?app_assoc. reflexivity.
           ++ simpl. rewrite count_app, Hw. simpl. exact Hw'.
           ++ simpl. rewrite count_app, Hb. simpl. exact Hacc'.
        -- destruct Hrun as (tr & c & Hrun & Hw' & Hacc' & Hc).
           eexists (_ :: added ++ _ :: _ :: tr), c.
           split; [|split; [|split; [|exact Hc]]].
           ++ rewrite Hrun. simpl. rewrite Htr, <- ?app_assoc. simpl.
              rewrite <- ?app_assoc. reflexivity.
           ++ simpl. rewrite count_app, Hw. simpl. exact Hw'.
           ++ simpl. rewrite count_app, Hb. simpl. exact Hacc'.
    + injection Hrun as <- <-.
      exists [], (clock net (clock_reads t)). simpl.
      split; [reflexivity|]. split; [reflexivity|]. split; [reflexivity|].
      apply Z.ltb_ge in Hnow. exact Hnow.
Qed.

(** C7 (as amended): an endpoint whose [publish.single] fails is logged
    at debug level and the sweep goes on with the endpoints that follow.
    A clock reading that has reached the bound ends the thread, from any
    turn of the loop and so from the start of the thread, with the drop
    warning, which carries the configured timeout, and the answer [False].
    When every entry of [mb_urls] unpacks
    into host and port, the thread raises no exception and ends once a
    clock reading has reached the bound; it answers [True] only right
    after an accepted attempt and its debug line, with no warning logged;
    and it answers [False] only after a clock reading that had reached the
    bound, with every attempt refused and the drop warning as the last
    effect and only warning. *)
Theorem only_deadline_exhaustion_fails :
  (forall (topic payload : string) (auth : option (string * option string))
          (pre rest : list string) (t : Task),
      forallb is_endpoint pre = true ->
      all_refuse net (attempts t) pre = true ->
      sweep net topic payload auth (pre ++ rest) t
      = sweep net topic payload auth rest
          (after_refusals topic payload auth pre t))
  /\ (forall (fuel : nat) (payload : string)
             (auth : option (string * option string))
             (retry_iterator : IncrementalCeilingListIterator) (t : Task),
        bound <= clock net (clock_reads t) - ep_start_time self ->
        retry_loop (S fuel) net cfg self payload auth retry_iterator t
        = (Return false,
           {| clock_reads := S (clock_reads t); attempts := attempts t;
              ttrace := ttrace t
                        ++ [EClock (clock net (clock_reads t));
                            drop_warning cfg] |}))
  /\ (forall fuel : nat,
        bound <= clock net 0 - ep_start_time self ->
        publish_event to_json (S fuel) net cfg self event new_task
        = (Return false,
           {| clock_reads := 1; attempts := 0;
              ttrace := [EClock (clock net 0); drop_warning cfg] |}))
  /\ (forallb is_endpoint (mb_urls cfg) = true ->
      (forall (fuel : nat) (e : Exn),
          answer (publish_event to_json fuel net cfg self event) new_task
          <> Raise e)
      /\ (forall (fuel : nat) (t' : Task),
            publish_event to_json fuel net cfg self event new_task
            = (Return true, t') ->
            exists tr host port,
              ttrace t'
              = tr ++ [EAttempt (ep_topic self) (to_json event) host port
                         (auth_of cfg) true;
                       ELog DEBUG "Event published to %s:%s"
                         [AStr host; AStr port]]
              /\ count is_accepted tr = O
              /\ count is_warning (ttrace t') = O)
      /\ (forall (fuel : nat) (t' : Task),
            publish_event to_json fuel net cfg self event new_task
            = (Return false, t') ->
            exists tr c,
              ttrace t' = tr ++ [EClock c; drop_warning cfg]
              /\ count is_warning (ttrace t') = 1%nat
              /\ count is_accepted (ttrace t') = O
              /\ bound <= c - ep_start_time self)
      /\ (forall k : nat,
            bound <= clock net k - ep_start_time self ->
            answer (publish_event to_json (S k) net cfg self event) new_task
            <> OutOfFuel)).
Proof.
  split; [|split; [|split]].
  - intros topic payload auth pre rest t Hpre Href. now apply sweep_refused.
  - intros fuel payload auth it t Hexp.
    rewrite retry_loop_turn. cbv zeta.
    apply Z.ltb_ge in Hexp. now rewrite Hexp.
  - intros fuel Hexp. unfold publish_event.
    rewrite retry_loop_turn. cbv zeta. cbn [clock_reads new_task].
    apply Z.ltb_ge in Hexp. now rewrite Hexp.
  - intros Hwf. split; [|split; [|split]].
    + intros fuel e He. unfold answer, publish_event in He.
      destruct (retry_loop fuel net cfg self _ _ _ new_task) as [r t'] eqn:Hrun.
      apply (retry_loop_answers _ _ Hwf) in Hrun. simpl in He. subst r.
      exact Hrun.
    + intros fuel t' Hrun. unfold publish_event in Hrun.
      apply (retry_loop_answers _ _ Hwf) in Hrun.
      destruct Hrun as (tr & host & port & Htr & Hw & Hacc).
      simpl in Htr. exists tr, host, port. split; [exact Htr|].
      split; [exact Hacc|]. rewrite Htr, count_app, Hw. reflexivity.
    + intros fuel t' Hrun. unfold publish_event in Hrun.
      apply (retry_loop_answers _ _ Hwf) in Hrun.
      destruct Hrun as (tr & c & Htr & Hw & Hacc & Hc).
      simpl in Htr. exists tr, c. split; [exact Htr|].
      rewrite Htr, !count_app, Hw, Hacc. repeat split. exact Hc.
    + intros k Hexp. unfold publish_event.
      apply (retry_loop_terminates net cfg self _ _ Hwf (S k) k); [lia|].
      exact Hexp.
Qed.

End Failures.

Lemma only_deadline_exhaustion_fails_witness :
  forallb is_endpoint (mb_urls sample_config) = true
  /\ mb_publisher_timeout sample_config * 1000
     <= clock dead_net 26 - ep_start_time sample_publisher
  /\ answer (publish_event sample_to_json 27 dead_net sample_config
               sample_publisher CompleteTopologyRequestEvent) new_task
     <> OutOfFuel.
Proof.
  split; [reflexivity|]. split; [vm_compute; discriminate|].
  destruct (only_deadline_exhaustion_fails sample_to_json dead_net
              sample_config sample_publisher CompleteTopologyRequestEvent)
    as (_ & _ & _ & H).
  destruct (H eq_refl) as (_ & _ & _ & Hend).
  apply (Hend 26%nat). vm_compute. discriminate.
Defined.

(** C7, the claim as written fails: with the entry [localhost], which has
    no port, as second of two endpoints, the delivery thread is ended by a
    [ValueError] at its first sweep, well within the bound: the first
    endpoint has been attempted and refused, nothing is slept and no
    warning is logged. *)
Lemma malformed_endpoint_ends_thread_without_warning :
  let run :=
    publish_event sample_to_json 5 dead_net bare_config sample_publisher
      CompleteTopologyRequestEvent new_task in
  mb_urls bare_config = ["mb-a:1883"; "localhost"]%string
  /\ clock dead_net 0 - ep_start_time sample_publisher
     < mb_publisher_timeout bare_config * 1000
  /\ fst run = Raise ValueError
  /\ count is_attempt (ttrace (snd run)) = 1%nat
  /\ count is_sleep (ttrace (snd run)) = O
  /\ count is_warning (ttrace (snd run)) = O.
Proof. vm_compute. repeat split; reflexivity. Qed.
